(** * Radisafe: table copy from ProjectManagement to Dev

    A shallow embedding of [CopyfromProjectManagementtoDev.py]: the catalog
    rows the script reads, the type formatter, the column-definition loop,
    the statements it sends, the batched copy under [try]/[finally] and the
    primary-key stage, followed by the properties proved about them.

    Conventions.
    - Python [str] values are modelled by [string].  The only string
      operation of the script that depends on the characters is
      [str.lower], applied to the catalog type name, which may be a user
      alias type with any Unicode name: it is taken from the [Runtime], of
      which all that is assumed is what it does to ASCII text.
    - Python [int] values are modelled by [Z]; [//] is [Z.div] (both round
      towards minus infinity) and [f"{n}"] is the signed decimal numeral.
    - A catalog field that the script guards against [None] is an [option];
      a field the script uses unguarded keeps its plain type.
    - A pyodbc call that raises is modelled by an explicit outcome; what the
      two database sessions do is recorded in an explicit world state. *)

From Stdlib Require Import String Ascii List ZArith Lia Bool DecimalString.
From Stdlib Require Import DecimalPos DecimalZ.
From Stdlib Require Import Sorting.Sorted.
Import ListNotations.
Open Scope string_scope.

(** ** Python primitives used by the script *)

Module Py.

(** Lower-casing of ASCII text: [A]-[Z] to [a]-[z], every other character
    unchanged. *)
Definition lower_ascii (c : ascii) : ascii :=
  let n := nat_of_ascii c in
  if ((65 <=? n) && (n <=? 90))%nat then ascii_of_nat (n + 32) else c.

Fixpoint lower (s : string) : string :=
  match s with
  | EmptyString => EmptyString
  | String c s' => String (lower_ascii c) (lower s')
  end.

Fixpoint is_ascii (s : string) : bool :=
  match s with
  | EmptyString => true
  | String c s' => (nat_of_ascii c <? 128)%nat && is_ascii s'
  end.

(** [x or ""] for an optional string: [None] and the empty string are
    both falsy. *)
Definition or_empty (x : option string) : string :=
  match x with
  | Some s => s
  | None => ""
  end.

(** [x in (a, b, ...)] for strings. *)
Definition str_in (x : string) (l : list string) : bool :=
  existsb (String.eqb x) l.

(** [f"{n}"] for an [int]. *)
Definition fmt_int (n : Z) : string :=
  NilZero.string_of_int (Z.to_int n).

(** [f"{x}"] for a value that may be [None]. *)
Definition fmt_opt_int (x : option Z) : string :=
  match x with
  | Some n => fmt_int n
  | None => "None"
  end.

(** Truthiness of an optional flag ([None] is falsy). *)
Definition truthy (x : option bool) : bool :=
  match x with
  | Some b => b
  | None => false
  end.

(** [sep.join(l)]. *)
Definition join (sep : string) (l : list string) : string :=
  String.concat sep l.

End Py.

(** The part of the Python runtime the script relies on: [str.lower].  It
    is Unicode-aware; on ASCII text it is the ASCII lower-casing, and
    nothing else is assumed about it. *)
Class Runtime := {
  str_lower : string -> string;
  str_lower_ascii :
    forall s : string, Py.is_ascii s = true -> str_lower s = Py.lower s
}.

(** A runtime that knows ASCII only, for running the model on ASCII
    inputs. *)
Definition ascii_runtime : Runtime :=
  {| str_lower := Py.lower; str_lower_ascii := fun s _ => eq_refl |}.

(** ** Process-wide constants *)

Record Config := {
  SRC_DB : string;
  DST_DB : string;
  SCHEMA : string;
  TABLE : string
}.

Definition script_config : Config :=
  {| SRC_DB := "ProjectManagement";
     DST_DB := "Dev";
     SCHEMA := "dim";
     TABLE := "Employees" |}.

(** ** Catalog rows *)

(** One row of [meta_sql]. *)
Record ColumnRow := {
  column_id : Z;
  col_name : string;
  data_type : option string;
  max_length : Z;
  precision : Z;
  scale : option Z;
  is_nullable : bool;
  is_identity : bool;
  is_computed : bool;
  computed_definition : option string;
  computed_persisted : option bool
}.

(** One row of [pk_info_sql]. *)
Record PkInfoRow := {
  index_id : Z;
  index_type : Z
}.

(** One row of [pk_cols_sql]. *)
Record PkColRow := {
  pk_col_name : string;
  is_descending_key : bool;
  key_ordinal : Z
}.

(** ** TypeFormatter: [format_sql_type] *)

Definition format_sql_type {rt : Runtime} (r : ColumnRow) : string :=
  let dt := str_lower (Py.or_empty (data_type r)) in
  if dt =? "text" then "varchar(MAX)"
  else if dt =? "ntext" then "nvarchar(MAX)"
  else if dt =? "image" then "varbinary(MAX)"
  else if Py.str_in dt ["varchar"; "nvarchar"; "varbinary"] then
    if (max_length r =? -1)%Z then dt ++ "(MAX)"
    else if dt =? "nvarchar"
         then "nvarchar(" ++ Py.fmt_int (max_length r / 2) ++ ")"
         else dt ++ "(" ++ Py.fmt_int (max_length r) ++ ")"
  else if Py.str_in dt ["char"; "nchar"; "binary"] then
    if dt =? "nchar"
    then "nchar(" ++ Py.fmt_int (max_length r / 2) ++ ")"
    else dt ++ "(" ++ Py.fmt_int (max_length r) ++ ")"
  else if Py.str_in dt ["decimal"; "numeric"] then
    dt ++ "(" ++ Py.fmt_int (precision r) ++ "," ++ Py.fmt_opt_int (scale r) ++ ")"
  else if Py.str_in dt ["datetime2"; "datetimeoffset"; "time"] then
    let s := match scale r with
             | Some v => if (v =? 0)%Z then 7%Z else v
             | None => 7%Z
             end in
    dt ++ "(" ++ Py.fmt_int s ++ ")"
  else dt.

(** The lower-cased type name the formatter dispatches on. *)
Definition type_key {rt : Runtime} (r : ColumnRow) : string :=
  str_lower (Py.or_empty (data_type r)).

(** ** TableBuilder: the column-definition loop *)

(** The three accumulators of the loop over [cols]. *)
Record Build := {
  col_defs : list string;
  insertable_cols : list string;
  has_identity : bool
}.

Definition build_init : Build :=
  {| col_defs := []; insertable_cols := []; has_identity := false |}.

(** One iteration of [for r in cols]. *)
Definition build_step {rt : Runtime} (st : Build) (r : ColumnRow)
    : Build :=
  let name := "[" ++ col_name r ++ "]" in
  if is_computed r then
    let definition := Py.or_empty (computed_definition r) in
    let persisted :=
      if Py.truthy (computed_persisted r) then " PERSISTED" else "" in
    {| col_defs := col_defs st ++ [name ++ " AS " ++ definition ++ persisted];
       insertable_cols := insertable_cols st;
       has_identity := has_identity st |}
  else
    let sql_type := format_sql_type r in
    let identity := if is_identity r then " IDENTITY(1,1)" else "" in
    let nullability := if is_nullable r then " NULL" else " NOT NULL" in
    {| col_defs :=
         col_defs st ++ [name ++ " " ++ sql_type ++ identity ++ nullability];
       insertable_cols := insertable_cols st ++ [name];
       has_identity := if is_identity r then true else has_identity st |}.

Definition build_columns {rt : Runtime} (cols : list ColumnRow) : Build :=
  fold_left build_step cols build_init.

Definition nl : string := String (ascii_of_nat 10) EmptyString.

Definition qualified (cfg : Config) : string :=
  "[" ++ SCHEMA cfg ++ "].[" ++ TABLE cfg ++ "]".

Definition create_sql (cfg : Config) (defs : list string) : string :=
  "CREATE TABLE " ++ qualified cfg ++ " (" ++ nl ++ "  "
    ++ Py.join ("," ++ nl ++ "  ") defs ++ nl ++ ");".

(** ** BatchCopier: the two copy statements *)

Definition BATCH : nat := 5000.

Arguments BATCH : simpl never.

Definition src_select_cols (insertable : list string) : string :=
  Py.join ", " insertable.

Definition src_select_sql (cfg : Config) (insertable : list string) : string :=
  "SELECT " ++ src_select_cols insertable ++ " FROM " ++ qualified cfg.

Definition placeholders (insertable : list string) : string :=
  Py.join ", " (repeat "?" (length insertable)).

Definition insert_sql (cfg : Config) (insertable : list string) : string :=
  "INSERT INTO " ++ qualified cfg ++ " (" ++ src_select_cols insertable
    ++ ") VALUES (" ++ placeholders insertable ++ ")".

Definition identity_insert_sql (cfg : Config) (on : bool) : string :=
  "SET IDENTITY_INSERT " ++ qualified cfg ++ (if on then " ON;" else " OFF;").

(** ** SchemaIntrospector: primary-key metadata *)

(** Lines 77-83: [pk_cols] and [pk_is_clustered] from the constraint row
    (if any) and the rows of the index-columns query for its index. *)
Definition collect_pk (pk_row : option PkInfoRow)
    (index_columns : Z -> list PkColRow) : list (string * bool) * bool :=
  match pk_row with
  | Some row =>
      (fold_left
         (fun acc r => (acc ++ [(pk_col_name r, is_descending_key r)])%list)
         (index_columns (index_id row)) [],
       (index_type row =? 1)%Z)
  | None => ([], false)
  end.

(** ** PrimaryKeyReplicator: statement text *)

Definition pk_exists_sql : string :=
  nl ++ "        SELECT 1" ++ nl
  ++ "        FROM sys.key_constraints kc" ++ nl
  ++ "        JOIN sys.tables tb ON kc.parent_object_id = tb.object_id" ++ nl
  ++ "        JOIN sys.schemas s ON tb.schema_id = s.schema_id" ++ nl
  ++ "        WHERE kc.type = 'PK' AND s.name = ? AND tb.name = ?;" ++ nl
  ++ "    ".

Definition cols_ddl (pk_cols : list (string * bool)) : string :=
  Py.join ", "
    (map (fun c : string * bool =>
            "[" ++ fst c ++ "] " ++ (if snd c then "DESC" else "ASC"))
         pk_cols).

Definition pk_name (cfg : Config) : string :=
  "PK_" ++ SCHEMA cfg ++ "_" ++ TABLE cfg.

Definition add_pk_sql (cfg : Config) (pk_cols : list (string * bool))
    (pk_is_clustered : bool) : string :=
  let clustered := if pk_is_clustered then "CLUSTERED" else "NONCLUSTERED" in
  "ALTER TABLE " ++ qualified cfg ++ " ADD CONSTRAINT [" ++ pk_name cfg
    ++ "] PRIMARY KEY " ++ clustered ++ " (" ++ cols_ddl pk_cols ++ ");".

Definition report (cfg : Config) (rows_copied : Z) : string :=
  "Copied " ++ Py.fmt_int rows_copied ++ " rows to "
    ++ DST_DB cfg ++ "." ++ SCHEMA cfg ++ "." ++ TABLE cfg.

(** ** The two database sessions *)

(** The pyodbc calls made from line 181 on, each of which may raise.  The
    calls inside the loop carry the 0-based number of the iteration. *)
Inductive Site :=
| SetIdentityOn
| Fetch (k : nat)
| Insert (k : nat)
| BatchCommit (k : nat)
| SetIdentityOff
| CleanupCommit
| PkExists
| AddPk
| PkCommit.

(** What the environment does to a run: which calls raise, and how many
    leading rows of its batch a failing [executemany] had already written
    to the open transaction when it raised. *)
Record Faults := {
  raises : Site -> bool;
  applied : nat -> nat
}.

Definition no_faults : Faults :=
  {| raises := fun _ => false; applied := fun _ => 0 |}.

Inductive Outcome (A : Type) :=
| Returned (a : A)
| Raised (site : Site)
| OutOfFuel.

Arguments Returned {A} a.
Arguments Raised {A} site.
Arguments OutOfFuel {A}.

Section Session.

Variable Row : Type.

(** Calls on [dst_cur] and [dst_cnx]; [Query] is an [execute] whose
    result is read with [fetchone]. *)
Inductive DstCall :=
| Query (sql : string) (params : list string)
| Execute (sql : string)
| ExecuteMany (sql : string) (rows : list Row)
| Commit.

(** Both connections are opened with [autocommit=False]: rows written by
    [executemany] stay in the open transaction until [commit]. *)
Record World := {
  src_unread : list Row;        (* result set of [src_cur2], not yet fetched *)
  fetched : list (list Row);    (* results of [fetchmany], oldest first *)
  dst_committed : list Row;     (* committed rows of the destination table *)
  dst_open : list Row;          (* rows written in the open transaction *)
  identity_insert : bool;       (* IDENTITY_INSERT setting of the session *)
  dst_has_pk : bool;            (* destination table has a PK constraint *)
  dst_calls : list DstCall;     (* calls on the destination, oldest first *)
  stdout : list string
}.

Definition M (A : Type) : Type := World -> Outcome A * World.

Definition ret {A} (a : A) : M A := fun w => (Returned a, w).

Definition bind {A B} (m : M A) (k : A -> M B) : M B :=
  fun w =>
    match m w with
    | (Returned a, w') => k a w'
    | (Raised s, w') => (Raised s, w')
    | (OutOfFuel, w') => (OutOfFuel, w')
    end.

(** [try: body finally: fin].  The finalizer always runs; if it raises,
    its exception replaces the outcome of the body. *)
Definition try_finally {A} (body : M A) (fin : M unit) : M A :=
  fun w =>
    let (r, w1) := body w in
    match fin w1 with
    | (Returned _, w2) => (r, w2)
    | (Raised s, w2) => (Raised s, w2)
    | (OutOfFuel, w2) => (OutOfFuel, w2)
    end.

Definition log_call (c : DstCall) (w : World) : World :=
  {| src_unread := src_unread w; fetched := fetched w;
     dst_committed := dst_committed w; dst_open := dst_open w;
     identity_insert := identity_insert w; dst_has_pk := dst_has_pk w;
     dst_calls := dst_calls w ++ [c]; stdout := stdout w |}.

Definition write_rows (rows : list Row) (w : World) : World :=
  {| src_unread := src_unread w; fetched := fetched w;
     dst_committed := dst_committed w; dst_open := dst_open w ++ rows;
     identity_insert := identity_insert w; dst_has_pk := dst_has_pk w;
     dst_calls := dst_calls w; stdout := stdout w |}.

Definition commit_open (w : World) : World :=
  {| src_unread := src_unread w; fetched := fetched w;
     dst_committed := dst_committed w ++ dst_open w; dst_open := [];
     identity_insert := identity_insert w; dst_has_pk := dst_has_pk w;
     dst_calls := dst_calls w; stdout := stdout w |}.

Definition set_flag (on : bool) (w : World) : World :=
  {| src_unread := src_unread w; fetched := fetched w;
     dst_committed := dst_committed w; dst_open := dst_open w;
     identity_insert := on; dst_has_pk := dst_has_pk w;
     dst_calls := dst_calls w; stdout := stdout w |}.

Definition set_pk (w : World) : World :=
  {| src_unread := src_unread w; fetched := fetched w;
     dst_committed := dst_committed w; dst_open := dst_open w;
     identity_insert := identity_insert w; dst_has_pk := true;
     dst_calls := dst_calls w; stdout := stdout w |}.

Definition take_rows (n : nat) (w : World) : World :=
  {| src_unread := skipn n (src_unread w);
     fetched := fetched w ++ [firstn n (src_unread w)];
     dst_committed := dst_committed w; dst_open := dst_open w;
     identity_insert := identity_insert w; dst_has_pk := dst_has_pk w;
     dst_calls := dst_calls w; stdout := stdout w |}.

Definition put_line (s : string) (w : World) : World :=
  {| src_unread := src_unread w; fetched := fetched w;
     dst_committed := dst_committed w; dst_open := dst_open w;
     identity_insert := identity_insert w; dst_has_pk := dst_has_pk w;
     dst_calls := dst_calls w; stdout := stdout w ++ [s] |}.

Variable cfg : Config.
Variable F : Faults.

(** [src_cur2.fetchmany(n)] *)
Definition fetchmany (k n : nat) : M (list Row) :=
  fun w =>
    if raises F (Fetch k) then (Raised (Fetch k), w)
    else (Returned (firstn n (src_unread w)), take_rows n w).

(** [dst_cur.executemany(sql, rows)] *)
Definition executemany (k : nat) (sql : string) (rows : list Row) : M unit :=
  fun w =>
    let w' := log_call (ExecuteMany sql rows) w in
    if raises F (Insert k)
    then (Raised (Insert k), write_rows (firstn (applied F k) rows) w')
    else (Returned tt, write_rows rows w').

(** [dst_cnx.commit()] *)
Definition commit (site : Site) : M unit :=
  fun w =>
    let w' := log_call Commit w in
    if raises F site then (Raised site, w')
    else (Returned tt, commit_open w').

(** [dst_cur.execute("SET IDENTITY_INSERT ... ON|OFF;")] *)
Definition set_identity_insert (on : bool) : M unit :=
  fun w =>
    let site := if on then SetIdentityOn else SetIdentityOff in
    let w' := log_call (Execute (identity_insert_sql cfg on)) w in
    if raises F site then (Raised site, w')
    else (Returned tt, set_flag on w').

(** [dst_cur.execute(pk_exists_sql, SCHEMA, TABLE).fetchone()] *)
Definition query_pk_exists : M bool :=
  fun w =>
    let w' := log_call (Query pk_exists_sql [SCHEMA cfg; TABLE cfg]) w in
    if raises F PkExists then (Raised PkExists, w')
    else (Returned (dst_has_pk w), w').

(** [dst_cur.execute("ALTER TABLE ... ADD CONSTRAINT ...")] *)
Definition execute_add_pk (sql : string) : M unit :=
  fun w =>
    let w' := log_call (Execute sql) w in
    if raises F AddPk then (Raised AddPk, w')
    else (Returned tt, set_pk w').

Definition print (s : string) : M unit :=
  fun w => (Returned tt, put_line s w).

End Session.

Arguments Query {Row} sql params.
Arguments Execute {Row} sql.
Arguments Commit {Row}.
Arguments ret {Row A} a.
Arguments bind {Row A B} m k.
Arguments try_finally {Row A} body fin.
Arguments print {Row} s.

Notation "x <- m ;; k" := (bind m (fun x => k))
  (at level 61, m at next level, right associativity).
Notation "m ;;; k" := (bind m (fun _ => k))
  (at level 61, right associativity).

(** ** BatchCopier and PrimaryKeyReplicator *)

Section Pipeline.

Variable Row : Type.
Context {rt : Runtime}.
Variable cfg : Config.
Variable F : Faults.

(** The [while True] loop of lines 186-192; [k] numbers the iterations.
    [fuel] bounds the number of iterations the model unfolds. *)
Fixpoint copy_loop (sql : string) (fuel k : nat) (rows_copied : Z)
    : M Row Z :=
  match fuel with
  | O => fun w => (OutOfFuel, w)
  | S fuel' =>
      rows <- fetchmany Row F k BATCH ;;
      match rows with
      | [] => ret rows_copied
      | _ :: _ =>
          executemany Row F k sql rows ;;;
          commit Row F (BatchCommit k) ;;;
          copy_loop sql fuel' (S k) (rows_copied + Z.of_nat (length rows))
      end
  end.

(** Lines 181-197.  Every fetch of a non-empty batch consumes at least
    one unread row, so one more iteration than there are unread rows is
    always enough. *)
Definition copy_stage (insertable : list string) (has_id : bool)
    : M Row Z :=
  try_finally
    ((if has_id then set_identity_insert Row cfg F true else ret tt) ;;;
     (fun w =>
        copy_loop (insert_sql cfg insertable)
          (S (length (src_unread Row w))) 0 0 w))
    (if has_id
     then set_identity_insert Row cfg F false ;;; commit Row F CleanupCommit
     else ret tt).

(** Lines 200-215. *)
Definition pk_stage (pk_cols : list (string * bool))
    (pk_is_clustered : bool) : M Row unit :=
  match pk_cols with
  | [] => ret tt
  | _ :: _ =>
      exists_pk <- query_pk_exists Row cfg F ;;
      if exists_pk then ret tt
      else
        execute_add_pk Row F (add_pk_sql cfg pk_cols pk_is_clustered) ;;;
        commit Row F PkCommit
  end.

(** Lines 168-217 for the catalog rows read in lines 55 and 77-83. *)
Definition copy_and_finalize (cols : list ColumnRow)
    (pk_row : option PkInfoRow) (index_columns : Z -> list PkColRow)
    : M Row unit :=
  let b := build_columns cols in
  let pk := collect_pk pk_row index_columns in
  rows_copied <- copy_stage (insertable_cols b) (has_identity b) ;;
  pk_stage (fst pk) (snd pk) ;;;
  print (report cfg rows_copied).

End Pipeline.

Arguments copy_loop {Row} F sql fuel k rows_copied.
Arguments copy_stage {Row} cfg F insertable has_id.
Arguments pk_stage {Row} cfg F pk_cols pk_is_clustered.
Arguments copy_and_finalize {Row rt} cfg F cols pk_row index_columns.

(** The world when line 181 is reached: the destination table has just been
    dropped, recreated and committed (lines 158-166), and [src_cur2] holds
    the unread result of the source SELECT (line 174). *)
Definition start_world {Row : Type} (source_rows : list Row) : World Row :=
  {| src_unread := source_rows; fetched := [];
     dst_committed := []; dst_open := [];
     identity_insert := false; dst_has_pk := false;
     dst_calls := []; stdout := [] |}.

(** The first [n] batches of size [BATCH] of a result set. *)
Fixpoint batches {Row : Type} (n : nat) (l : list Row) : list (list Row) :=
  match n with
  | O => []
  | S n' => firstn BATCH l :: batches n' (skipn BATCH l)
  end.

(** Number of non-empty batches of a result set of [len] rows. *)
Definition batch_count (len : nat) : nat := (len + (BATCH - 1)) / BATCH.

(** The destination calls of [n] successful loop iterations. *)
Definition batch_calls {Row : Type} (sql : string) (bs : list (list Row))
    : list (DstCall Row) :=
  flat_map (fun b => [ExecuteMany Row sql b; Commit]) bs.

Definition is_statement {Row : Type} (c : DstCall Row) : bool :=
  match c with
  | Execute _ => true
  | _ => false
  end.

(** The world after one loop iteration in which no call raises. *)
Definition ok_batch {Row : Type} (sql : string) (w : World Row) : World Row :=
  let b := firstn BATCH (src_unread Row w) in
  commit_open Row
    (log_call Row Commit
       (write_rows Row b
          (log_call Row (ExecuteMany Row sql b) (take_rows Row BATCH w)))).

(** The world after [n] such iterations, started with no open writes. *)
Definition after_batches {Row : Type} (sql : string) (n : nat)
    (w : World Row) : World Row :=
  {| src_unread := skipn (n * BATCH) (src_unread Row w);
     fetched := fetched Row w ++ batches n (src_unread Row w);
     dst_committed :=
       dst_committed Row w ++ firstn (n * BATCH) (src_unread Row w);
     dst_open := [];
     identity_insert := identity_insert Row w;
     dst_has_pk := dst_has_pk Row w;
     dst_calls :=
       dst_calls Row w ++ batch_calls sql (batches n (src_unread Row w));
     stdout := stdout Row w |}.

(** Iterations [k], ..., [k + n - 1] of the loop meet no raising call. *)
Definition clean_run (F : Faults) (k n : nat) : Prop :=
  forall j : nat, j < n ->
    raises F (Fetch (k + j)) = false /\
    raises F (Insert (k + j)) = false /\
    raises F (BatchCommit (k + j)) = false.


(** The world in which the loop is left when the bulk insert of iteration
    [k] raises after [k] clean iterations, the loop having started in [w]. *)
Definition failed_world {Row : Type} (cfg : Config) (F : Faults)
    (insertable : list string) (k : nat) (w : World Row) : World Row :=
  let b := firstn BATCH (skipn (k * BATCH) (src_unread Row w)) in
  write_rows Row (firstn (applied F k) b)
    (log_call Row (ExecuteMany Row (insert_sql cfg insertable) b)
       (take_rows Row BATCH
          (after_batches (insert_sql cfg insertable) k w))).

(** The calls a stage added to the destination log. *)
Definition new_calls {Row : Type} (before after : World Row)
    : list (DstCall Row) :=
  skipn (length (dst_calls Row before)) (dst_calls Row after).

(** The destination calls of the primary-key stage, for any behaviour of
    the environment. *)
Definition pk_stage_calls {Row : Type} (cfg : Config) (F : Faults)
    (pk_cols : list (string * bool)) (pk_is_clustered has_pk : bool)
    : list (DstCall Row) :=
  match pk_cols with
  | [] => []
  | _ :: _ =>
      Query pk_exists_sql [SCHEMA cfg; TABLE cfg]
      :: (if raises F PkExists || has_pk then []
          else Execute (add_pk_sql cfg pk_cols pk_is_clustered)
               :: (if raises F AddPk then [] else [Commit]))
  end.

(** ** The spec's reading of the column loop *)

Definition quoted_name (r : ColumnRow) : string := "[" ++ col_name r ++ "]".

Definition non_computed (r : ColumnRow) : bool := negb (is_computed r).

(** The declaration clause one iteration of the loop appends for a catalog
    row, written out on the catalog fields themselves. *)
Definition loop_clause {rt : Runtime} (r : ColumnRow) : string :=
  if is_computed r then
    quoted_name r ++ " AS "
      ++ (match computed_definition r with
          | Some definition => definition
          | None => ""
          end)
      ++ (match computed_persisted r with
          | Some true => " PERSISTED"
          | _ => ""
          end)
  else
    quoted_name r ++ " " ++ format_sql_type r
      ++ (if is_identity r then " IDENTITY(1,1)" else "")
      ++ (if is_nullable r then " NULL" else " NOT NULL").


(** Follows the spec's words (3, InsertableColumnSet): the non-computed
    columns, in the order of the catalog rows. *)
Definition spec_insertable (cols : list ColumnRow) : list string :=
  map quoted_name (filter non_computed cols).

(** Follows the spec's words (4.3, step 2): the identity flags of the
    non-computed columns, ORed. *)
Definition spec_has_identity (cols : list ColumnRow) : bool :=
  existsb is_identity (filter non_computed cols).

Definition by_column_id (a b : ColumnRow) : Prop :=
  (column_id a < column_id b)%Z.

(** ** Vocabulary for the further properties *)

(** The integer a signed decimal numeral denotes, if the text is one. *)
Definition read_int (s : string) : option Z :=
  option_map Z.of_int (NilZero.int_of_string s).

(** The type names [format_sql_type] treats specially, in dispatch order. *)
Definition handled_types : list string :=
  ["text"; "ntext"; "image";
   "varchar"; "nvarchar"; "varbinary";
   "char"; "nchar"; "binary";
   "decimal"; "numeric";
   "datetime2"; "datetimeoffset"; "time"].

(** The same catalog row with another [data_type]. *)
Definition with_data_type (r : ColumnRow) (ty : option string) : ColumnRow :=
  {| column_id := column_id r; col_name := col_name r; data_type := ty;
     max_length := max_length r; precision := precision r; scale := scale r;
     is_nullable := is_nullable r; is_identity := is_identity r;
     is_computed := is_computed r;
     computed_definition := computed_definition r;
     computed_persisted := computed_persisted r |}.

(** A destination call the loop may make: a bulk insert of [sql] with
    between 1 and [BATCH] rows, or a commit. *)
Definition loop_call_ok {Row : Type} (sql : string) (c : DstCall Row) : Prop :=
  match c with
  | ExecuteMany _ s rows => s = sql /\ 0 < length rows <= BATCH
  | Commit => True
  | _ => False
  end.

(** Any destination call except a bulk insert that is empty, oversized or
    carries another statement. *)
Definition bulk_insert_ok {Row : Type} (sql : string) (c : DstCall Row)
    : Prop :=
  match c with
  | ExecuteMany _ s rows => s = sql /\ 0 < length rows <= BATCH
  | _ => True
  end.

(** The cleanup of the identity branch reaches and completes its commit. *)
Definition cleanup_commits (F : Faults) (has_id : bool) : bool :=
  has_id && negb (raises F SetIdentityOff) && negb (raises F CleanupCommit).

(** The site whose error a failing copy stage reports when the body of the
    [try] raised at [site]: an error of the cleanup replaces it. *)
Definition reported_site (F : Faults) (has_id : bool) (site : Site) : Site :=
  if has_id && raises F SetIdentityOff then SetIdentityOff
  else if has_id && raises F CleanupCommit then CleanupCommit
  else site.

(** The world in which the loop is left when the commit of iteration [k]
    raises after [k] clean iterations, the loop having started in [w]. *)
Definition uncommitted_world {Row : Type} (sql : string) (k : nat)
    (w : World Row) : World Row :=
  let b := firstn BATCH (skipn (k * BATCH) (src_unread Row w)) in
  log_call Row Commit
    (write_rows Row b
       (log_call Row (ExecuteMany Row sql b)
          (take_rows Row BATCH (after_batches sql k w)))).

(** A run from line 181 to the end of the script: what [copy_and_finalize]
    does after the copy stage ended with outcome [rc] in world [wc]. *)
Definition finalize_after {Row : Type} (cfg : Config) (F : Faults)
    (pk : list (string * bool) * bool) (rc : Outcome Z) (wc : World Row)
    : Outcome unit * World Row :=
  match rc with
  | Returned n =>
      (pk_stage cfg F (fst pk) (snd pk) ;;; print (report cfg n)) wc
  | Raised s => (Raised s, wc)
  | OutOfFuel => (OutOfFuel, wc)
  end.

(** ** Sample inputs *)

Definition sample_time_column : ColumnRow :=
  {| column_id := 4; col_name := "StartsAt"; data_type := Some "DateTime2";
     max_length := 8; precision := 27; scale := Some 0%Z;
     is_nullable := true; is_identity := false; is_computed := false;
     computed_definition := None; computed_persisted := None |}.

Definition sample_name_column : ColumnRow :=
  {| column_id := 2; col_name := "Name"; data_type := Some "nvarchar";
     max_length := 100; precision := 0; scale := Some 0%Z;
     is_nullable := true; is_identity := false; is_computed := false;
     computed_definition := None; computed_persisted := None |}.

Definition sample_columns : list ColumnRow :=
  [ {| column_id := 1; col_name := "ID"; data_type := Some "int";
       max_length := 4; precision := 10; scale := Some 0%Z;
       is_nullable := false; is_identity := true; is_computed := false;
       computed_definition := None; computed_persisted := None |};
    sample_name_column;
    {| column_id := 3; col_name := "FullName"; data_type := Some "nvarchar";
       max_length := 102; precision := 0; scale := Some 0%Z;
       is_nullable := true; is_identity := false; is_computed := true;
       computed_definition := Some "([Name]+'!')";
       computed_persisted := Some true |} ].

Definition sample_computed_only : list ColumnRow :=
  [ {| column_id := 1; col_name := "Stamp"; data_type := Some "datetime";
       max_length := 8; precision := 23; scale := Some 3%Z;
       is_nullable := true; is_identity := false; is_computed := true;
       computed_definition := Some "(getdate())";
       computed_persisted := Some false |} ].

(** The bulk insert of the second batch raises after the engine has
    written the first row of that batch; nothing else raises. *)
Definition second_insert_fails : Faults :=
  {| raises := fun s => match s with
                        | Insert 1 => true
                        | _ => false
                        end;
     applied := fun _ => 1 |}.

(** The bulk insert of the first batch raises after two rows. *)
Definition first_insert_fails : Faults :=
  {| raises := fun s => match s with
                        | Insert 0 => true
                        | _ => false
                        end;
     applied := fun _ => 2 |}.

Definition sample_pk_row : PkInfoRow := {| index_id := 1; index_type := 1 |}.

(** Data rows numbered consecutively from [start]. *)
Fixpoint numbered_rows (start : Z) (len : nat) : list Z :=
  match len with
  | O => []
  | S len' => start :: numbered_rows (start + 1) len'
  end.


(** The bulk insert of the first batch raises, and so does the statement
    that turns identity-insert off. *)
Definition insert_and_release_fail : Faults :=
  {| raises := fun s => match s with
                        | Insert 0 => true
                        | SetIdentityOff => true
                        | _ => false
                        end;
     applied := fun _ => 0 |}.

(** * Properties *)

(** ** Strings *)

(** What [f"{n}"] prints is the decimal numeral of [n]. *)
Lemma fmt_int_reads_back :
  forall n : Z, read_int (Py.fmt_int n) = Some n.
Proof.
  intros n. unfold read_int, Py.fmt_int. rewrite NilZero.isi.
  - cbn. now rewrite DecimalZ.of_to.
  - destruct n; cbn; try discriminate.
    intros H. injection H as H. revert H. apply Unsigned.to_uint_nonnil.
  - destruct n; cbn; try discriminate.
    intros H. injection H as H. revert H. apply Unsigned.to_uint_nonnil.
Qed.

Lemma report_literal :
  forall (cfg : Config) (n : Z),
    report cfg n =
    "Copied " ++ Py.fmt_int n ++ " rows to "
      ++ DST_DB cfg ++ "." ++ SCHEMA cfg ++ "." ++ TABLE cfg.
Proof. reflexivity. Qed.

Lemma append_assoc :
  forall a b c : string, (a ++ b) ++ c = a ++ (b ++ c).
Proof.
  induction a as [| ch a IH]; intros b c; cbn.
  - reflexivity.
  - now rewrite IH.
Qed.

(** ** TypeFormatter *)

Section TypeFormatter.

Context {rt : Runtime}.
Variable r : ColumnRow.

Lemma format_sql_type_key :
  format_sql_type r =
  let dt := type_key r in
  if dt =? "text" then "varchar(MAX)"
  else if dt =? "ntext" then "nvarchar(MAX)"
  else if dt =? "image" then "varbinary(MAX)"
  else if Py.str_in dt ["varchar"; "nvarchar"; "varbinary"] then
    if (max_length r =? -1)%Z then dt ++ "(MAX)"
    else if dt =? "nvarchar"
         then "nvarchar(" ++ Py.fmt_int (max_length r / 2) ++ ")"
         else dt ++ "(" ++ Py.fmt_int (max_length r) ++ ")"
  else if Py.str_in dt ["char"; "nchar"; "binary"] then
    if dt =? "nchar"
    then "nchar(" ++ Py.fmt_int (max_length r / 2) ++ ")"
    else dt ++ "(" ++ Py.fmt_int (max_length r) ++ ")"
  else if Py.str_in dt ["decimal"; "numeric"] then
    dt ++ "(" ++ Py.fmt_int (precision r) ++ ","
       ++ Py.fmt_opt_int (scale r) ++ ")"
  else if Py.str_in dt ["datetime2"; "datetimeoffset"; "time"] then
    let s := match scale r with
             | Some v => if (v =? 0)%Z then 7%Z else v
             | None => 7%Z
             end in
    dt ++ "(" ++ Py.fmt_int s ++ ")"
  else dt.
Proof. reflexivity. Qed.

End TypeFormatter.

(** Case analysis on a membership in a literal list of type names. *)
Ltac each_type H :=
  repeat (destruct H as [H | H]; [ | ]); try contradiction.

(** C5.  For a column whose lower-cased type name is datetime2,
    datetimeoffset or time, the formatted type is the type name followed by
    the scale in parentheses; the scale emitted is 7 when the catalog scale
    is null or zero, and the catalog scale otherwise. *)
Theorem temporal_scale_default :
  forall (rt : Runtime) (r : ColumnRow),
    In (type_key r) ["datetime2"; "datetimeoffset"; "time"] ->
    (scale r = None \/ scale r = Some 0%Z ->
     format_sql_type r = type_key r ++ "(7)") /\
    (forall v : Z, scale r = Some v -> v <> 0%Z ->
     format_sql_type r = type_key r ++ "(" ++ Py.fmt_int v ++ ")").
Proof.
  intros rt r Hin.
  rewrite format_sql_type_key.
  split.
  - intros [Hs | Hs]; rewrite Hs;
      simpl in Hin; each_type Hin; rewrite <- Hin; reflexivity.
  - intros v Hs Hv. rewrite Hs.
    apply Z.eqb_neq in Hv.
    simpl in Hin; each_type Hin; rewrite <- Hin; cbn; rewrite Hv; reflexivity.
Qed.

Lemma temporal_scale_default_witness :
  format_sql_type (rt := ascii_runtime) sample_time_column = "datetime2(7)".
Proof.
  apply (proj1 (temporal_scale_default ascii_runtime sample_time_column
                  (or_introl eq_refl))).
  right; reflexivity.
Defined.

(** C6.  For varchar, nvarchar and varbinary a max length of -1 gives
    [type(MAX)]; otherwise, and always for char, nchar and binary, the
    declared length is the stored byte count, halved (floor division) for
    the wide-character types nvarchar and nchar. *)
Theorem char_binary_length :
  forall (rt : Runtime) (r : ColumnRow),
    In (type_key r)
       ["varchar"; "nvarchar"; "varbinary"; "char"; "nchar"; "binary"] ->
    format_sql_type r =
    if Py.str_in (type_key r) ["varchar"; "nvarchar"; "varbinary"]
       && (max_length r =? -1)%Z
    then type_key r ++ "(MAX)"
    else type_key r ++ "("
           ++ Py.fmt_int (if Py.str_in (type_key r) ["nvarchar"; "nchar"]
                          then (max_length r / 2)%Z
                          else max_length r)
           ++ ")".
Proof.
  intros rt r Hin.
  rewrite format_sql_type_key.
  simpl in Hin; each_type Hin; rewrite <- Hin; cbn;
    destruct (max_length r =? -1)%Z; reflexivity.
Qed.

Lemma char_binary_length_witness :
  format_sql_type (rt := ascii_runtime) sample_name_column = "nvarchar(50)".
Proof.
  apply (char_binary_length ascii_runtime sample_name_column).
  right; left; reflexivity.
Defined.

(** ** TableBuilder *)

Section TableBuilder.

Context {rt : Runtime}.

Lemma build_step_fields :
  forall st r,
    col_defs (build_step st r) = (col_defs st ++ [loop_clause r])%list /\
    insertable_cols (build_step st r) =
      (insertable_cols st
         ++ (if non_computed r then [quoted_name r] else []))%list /\
    has_identity (build_step st r) =
      (has_identity st || (non_computed r && is_identity r)).
Proof.
  intros st r.
  unfold build_step, loop_clause, non_computed, quoted_name.
  destruct (is_computed r); cbn [col_defs insertable_cols has_identity negb].
  - rewrite app_nil_r, andb_false_l, orb_false_r.
    unfold Py.or_empty, Py.truthy.
    destruct (computed_definition r), (computed_persisted r) as [[] |];
      auto.
  - destruct (is_identity r), (has_identity st); auto.
Qed.

Lemma build_fold :
  forall cols st,
    col_defs (fold_left build_step cols st) =
      (col_defs st ++ map loop_clause cols)%list /\
    insertable_cols (fold_left build_step cols st) =
      (insertable_cols st ++ spec_insertable cols)%list /\
    has_identity (fold_left build_step cols st) =
      (has_identity st || spec_has_identity cols).
Proof.
  induction cols as [| r cols IH]; intros st.
  - cbn. rewrite !app_nil_r, orb_false_r. auto.
  - cbn [fold_left].
    destruct (IH (build_step st r)) as (Hd & Hi & Hh).
    destruct (build_step_fields st r) as (Sd & Si & Sh).
    rewrite Hd, Hi, Hh, Sd, Si, Sh.
    unfold spec_insertable, spec_has_identity.
    cbn [map filter].
    destruct (non_computed r); cbn [map existsb andb];
      rewrite <- ?app_assoc, ?app_nil_r, ?orb_false_r, <- ?orb_assoc; auto.
Qed.

Lemma insertable_is_spec :
  forall cols, insertable_cols (build_columns cols) = spec_insertable cols.
Proof.
  intros cols. unfold build_columns.
  destruct (build_fold cols build_init) as (_ & Hi & _).
  exact Hi.
Qed.

Lemma filter_keeps_order :
  forall cols,
    StronglySorted by_column_id cols ->
    StronglySorted by_column_id (filter non_computed cols).
Proof.
  induction 1 as [| a l Hs IH Hall]; cbn.
  - constructor.
  - destruct (non_computed a); [ | exact IH ].
    constructor; [ exact IH | ].
    rewrite Forall_forall in *.
    intros x Hx. apply filter_In in Hx. apply Hall. tauto.
Qed.

Lemma spec_insertable_nil :
  forall cols,
    spec_insertable cols = [] <-> forallb is_computed cols = true.
Proof.
  unfold spec_insertable, non_computed.
  induction cols as [| r cols IH]; cbn.
  - tauto.
  - destruct (is_computed r); cbn.
    + exact IH.
    + split; discriminate.
Qed.

End TableBuilder.




(** C1.  The SELECT sent to the source and the INSERT sent to the
    destination carry the same comma-separated column list, namely the
    bracketed names of the non-computed catalog rows in the order of the
    catalog rows; the INSERT has one placeholder per listed column; and when
    the catalog rows come in increasing column_id (the ORDER BY of the
    metadata query) so do the listed columns. *)
Theorem select_insert_same_columns :
  forall (rt : Runtime) (cfg : Config) (cols : list ColumnRow),
    StronglySorted by_column_id cols ->
    let listed := Py.join ", " (spec_insertable cols) in
    src_select_sql cfg (insertable_cols (build_columns cols)) =
      "SELECT " ++ listed ++ " FROM " ++ qualified cfg /\
    insert_sql cfg (insertable_cols (build_columns cols)) =
      "INSERT INTO " ++ qualified cfg ++ " (" ++ listed ++ ") VALUES ("
        ++ Py.join ", " (repeat "?" (length (filter non_computed cols)))
        ++ ")" /\
    StronglySorted by_column_id (filter non_computed cols).
Proof.
  intros rt cfg cols Hsorted listed.
  rewrite insertable_is_spec.
  unfold src_select_sql, insert_sql, src_select_cols, placeholders, listed.
  unfold spec_insertable at 4. rewrite length_map.
  repeat split; auto using filter_keeps_order.
Qed.

Lemma select_insert_same_columns_witness :
  src_select_sql script_config
    (insertable_cols (build_columns (rt := ascii_runtime) sample_columns)) =
    "SELECT [ID], [Name] FROM [dim].[Employees]" /\
  insert_sql script_config
    (insertable_cols (build_columns (rt := ascii_runtime) sample_columns)) =
    "INSERT INTO [dim].[Employees] ([ID], [Name]) VALUES (?, ?)".
Proof.
  assert (Hsorted : StronglySorted by_column_id sample_columns).
  { unfold sample_columns, by_column_id.
    repeat constructor; cbn; lia. }
  destruct (select_insert_same_columns ascii_runtime script_config
              sample_columns Hsorted)
    as (Hselect & Hinsert & _).
  split; [ exact Hselect | exact Hinsert ].
Defined.

(** C10.  When every catalog row is a computed column the insertable list
    is empty, the SELECT has an empty projection and the INSERT has empty
    column and value lists; conversely the insertable list is empty only
    then. *)
Theorem all_computed_empty_statements :
  forall (rt : Runtime) (cfg : Config) (cols : list ColumnRow),
    forallb is_computed cols = true ->
    insertable_cols (build_columns cols) = [] /\
    src_select_sql cfg (insertable_cols (build_columns cols)) =
      "SELECT  FROM " ++ qualified cfg /\
    insert_sql cfg (insertable_cols (build_columns cols)) =
      "INSERT INTO " ++ qualified cfg ++ " () VALUES ()" /\
    (forall cols' : list ColumnRow,
       insertable_cols (build_columns cols') = [] ->
       forallb is_computed cols' = true).
Proof.
  intros rt cfg cols Hall.
  apply spec_insertable_nil in Hall.
  rewrite insertable_is_spec, Hall.
  repeat split.
  intros cols' H. rewrite insertable_is_spec in H.
  apply spec_insertable_nil. exact H.
Qed.

Lemma all_computed_empty_statements_witness :
  insertable_cols (build_columns (rt := ascii_runtime) sample_computed_only) = [] /\
  src_select_sql script_config
    (insertable_cols (build_columns (rt := ascii_runtime) sample_computed_only)) =
    "SELECT  FROM [dim].[Employees]" /\
  insert_sql script_config
    (insertable_cols (build_columns (rt := ascii_runtime) sample_computed_only)) =
    "INSERT INTO [dim].[Employees] () VALUES ()".
Proof.
  destruct (all_computed_empty_statements ascii_runtime script_config
              sample_computed_only
              eq_refl)
    as (Hnone & Hselect & Hinsert & _).
  repeat split; assumption.
Defined.

(** ** PrimaryKeyReplicator *)

Section PrimaryKey.

Context {Row : Type}.

Lemma new_calls_app :
  forall (before after : World Row) (added : list (DstCall Row)),
    dst_calls Row after = (dst_calls Row before ++ added)%list ->
    new_calls before after = added.
Proof.
  intros before after added H. unfold new_calls.
  rewrite H, skipn_app, skipn_all, Nat.sub_diag. reflexivity.
Qed.

Lemma new_calls_same :
  forall w : World Row, new_calls w w = [].
Proof.
  intros w. apply new_calls_app. now rewrite app_nil_r.
Qed.

Lemma collect_pk_columns_acc :
  forall (rows : list PkColRow) (acc : list (string * bool)),
    fold_left
      (fun acc r => (acc ++ [(pk_col_name r, is_descending_key r)])%list)
      rows acc =
    (acc ++ map (fun r => (pk_col_name r, is_descending_key r)) rows)%list.
Proof.
  induction rows as [| r rows IH]; intros acc; cbn.
  - now rewrite app_nil_r.
  - rewrite IH, <- app_assoc. reflexivity.
Qed.

Lemma collect_pk_some :
  forall row index_columns,
    collect_pk (Some row) index_columns =
    (map (fun r => (pk_col_name r, is_descending_key r))
         (index_columns (index_id row)),
     (index_type row =? 1)%Z).
Proof.
  intros. unfold collect_pk. now rewrite collect_pk_columns_acc.
Qed.

Lemma cols_ddl_of_rows :
  forall rows : list PkColRow,
    cols_ddl (map (fun r => (pk_col_name r, is_descending_key r)) rows) =
    Py.join ", "
      (map (fun r => "[" ++ pk_col_name r ++ "] "
                       ++ (if is_descending_key r then "DESC" else "ASC"))
           rows).
Proof.
  intros rows. unfold cols_ddl. now rewrite map_map.
Qed.

Lemma pk_stage_log :
  forall cfg F pk_cols pk_is_clustered (w : World Row),
    dst_calls Row (snd (pk_stage cfg F pk_cols pk_is_clustered w)) =
    (dst_calls Row w
       ++ pk_stage_calls cfg F pk_cols pk_is_clustered (dst_has_pk Row w))%list.
Proof.
  intros cfg F pk_cols clustered w.
  unfold pk_stage, pk_stage_calls.
  destruct pk_cols as [| c rest].
  - cbn. now rewrite app_nil_r.
  - unfold bind, query_pk_exists, execute_add_pk, commit, ret.
    destruct (raises F PkExists); cbn; [ reflexivity | ].
    destruct (dst_has_pk Row w); cbn; [ reflexivity | ].
    destruct (raises F AddPk); cbn; [ now rewrite <- app_assoc | ].
    destruct (raises F PkCommit); cbn; now rewrite <- !app_assoc.
Qed.

End PrimaryKey.

(** C7.  The primary-key stage sends no statement when the source has no
    primary key and none when the destination already has a primary-key
    constraint (only the existence query is sent, nothing is compared);
    otherwise, once the existence query has answered, it sends exactly one
    statement: ALTER TABLE ... ADD CONSTRAINT [PK_schema_table] PRIMARY KEY,
    CLUSTERED exactly when the source index type is 1, over the key columns
    in the order of the index-columns query, each with DESC when its
    descending flag is set and ASC otherwise. *)
Theorem pk_stage_statements :
  forall (Row : Type) (cfg : Config) (F : Faults)
         (pk_row : option PkInfoRow) (index_columns : Z -> list PkColRow)
         (w : World Row),
    let pk := collect_pk pk_row index_columns in
    let key_rows :=
      match pk_row with
      | Some row => index_columns (index_id row)
      | None => []
      end in
    let clustered :=
      match pk_row with
      | Some row => (index_type row =? 1)%Z
      | None => false
      end in
    let after := snd (pk_stage cfg F (fst pk) (snd pk) w) in
    filter is_statement (new_calls w after) =
    if negb (length key_rows =? 0)%nat
       && negb (raises F PkExists) && negb (dst_has_pk Row w)
    then
      [Execute
         ("ALTER TABLE [" ++ SCHEMA cfg ++ "].[" ++ TABLE cfg
            ++ "] ADD CONSTRAINT [PK_" ++ SCHEMA cfg ++ "_" ++ TABLE cfg
            ++ "] PRIMARY KEY "
            ++ (if clustered then "CLUSTERED" else "NONCLUSTERED")
            ++ " ("
            ++ Py.join ", "
                 (map (fun r => "[" ++ pk_col_name r ++ "] "
                                  ++ (if is_descending_key r
                                      then "DESC" else "ASC"))
                      key_rows)
            ++ ");")]
    else [].
Proof.
  intros Row cfg F pk_row index_columns w pk key_rows clustered after.
  unfold after.
  rewrite (new_calls_app _ _ _ (pk_stage_log cfg F (fst pk) (snd pk) w)).
  unfold pk, key_rows, clustered.
  destruct pk_row as [row |]; [ | reflexivity ].
  rewrite collect_pk_some. cbn [fst snd].
  destruct (index_columns (index_id row)) as [| c rest] eqn:Hrows;
    [ reflexivity | ].
  unfold pk_stage_calls. cbn [map length Nat.eqb negb andb].
  destruct (raises F PkExists); [ reflexivity | ].
  destruct (dst_has_pk Row w); [ reflexivity | ].
  cbn [orb negb andb filter is_statement].
  unfold add_pk_sql, pk_name, qualified.
  change ((pk_col_name c, is_descending_key c)
            :: map (fun r => (pk_col_name r, is_descending_key r)) rest)
    with (map (fun r => (pk_col_name r, is_descending_key r)) (c :: rest)).
  rewrite cols_ddl_of_rows.
  rewrite !append_assoc.
  destruct (raises F AddPk); reflexivity.
Qed.

(** C9.  When the constraint query returns a row but the index-columns
    query for its index returns no column, the collected key-column list is
    empty and the stage does nothing, exactly as when there is no
    constraint row; in general the stage makes no destination call at all
    if and only if the collected key-column list is empty. *)
Theorem pk_stage_needs_key_columns :
  forall (Row : Type) (cfg : Config) (F : Faults) (row : PkInfoRow)
         (index_columns : Z -> list PkColRow) (w : World Row),
    index_columns (index_id row) = [] ->
    let pk := collect_pk (Some row) index_columns in
    fst pk = [] /\
    pk_stage cfg F (fst pk) (snd pk) w = (Returned tt, w) /\
    pk_stage cfg F (fst pk) (snd pk) w =
      pk_stage cfg F (fst (collect_pk None index_columns))
                     (snd (collect_pk None index_columns)) w /\
    (forall (pk_cols : list (string * bool)) (pk_is_clustered : bool),
       new_calls w (snd (pk_stage cfg F pk_cols pk_is_clustered w)) = []
       <-> pk_cols = []).
Proof.
  intros Row cfg F row index_columns w Hrows pk.
  unfold pk. rewrite collect_pk_some, Hrows. cbn [map fst snd].
  repeat split.
  - intros H.
    rewrite (new_calls_app _ _ _ (pk_stage_log cfg F pk_cols pk_is_clustered w))
      in H.
    destruct pk_cols; [ reflexivity | discriminate H ].
  - intros ->. cbn. apply new_calls_same.
Qed.

Lemma pk_stage_needs_key_columns_witness :
  pk_stage script_config no_faults
    (fst (collect_pk (Some sample_pk_row) (fun _ => [])))
    (snd (collect_pk (Some sample_pk_row) (fun _ => [])))
    (start_world (@nil Z)) =
  (Returned tt, start_world []).
Proof.
  exact (proj1 (proj2 (pk_stage_needs_key_columns Z script_config no_faults
                         sample_pk_row (fun _ => []) (start_world [])
                         eq_refl))).
Defined.

(** ** BatchCopier *)

Section Batches.

Context {Row : Type}.

Lemma BATCH_pos : 0 < BATCH.
Proof. unfold BATCH. lia. Qed.

Lemma firstn_plus :
  forall (a b : nat) (l : list Row),
    firstn (a + b) l = (firstn a l ++ firstn b (skipn a l))%list.
Proof.
  induction a as [| a IH]; intros b l.
  - reflexivity.
  - destruct l as [| x l]; cbn.
    + now rewrite firstn_nil.
    + now rewrite IH.
Qed.

Lemma firstn_empty_inv :
  forall (n : nat) (l : list Row),
    0 < n -> firstn n l = [] -> l = [].
Proof.
  intros n l Hn H. destruct n; [ lia | ].
  destruct l; [ reflexivity | discriminate H ].
Qed.

Lemma batches_snoc :
  forall (n : nat) (l : list Row),
    batches (S n) l =
    (batches n l ++ [firstn BATCH (skipn (n * BATCH) l)])%list.
Proof.
  induction n as [| n IH]; intros l.
  - reflexivity.
  - change (batches (S (S n)) l)
      with (firstn BATCH l :: batches (S n) (skipn BATCH l)).
    rewrite IH, skipn_skipn.
    change (S n * BATCH) with (BATCH + n * BATCH).
    rewrite (Nat.add_comm BATCH). reflexivity.
Qed.

Lemma concat_batches :
  forall (n : nat) (l : list Row),
    concat (batches n l) = firstn (n * BATCH) l.
Proof.
  induction n as [| n IH]; intros l.
  - reflexivity.
  - change (S n * BATCH) with (BATCH + n * BATCH).
    rewrite firstn_plus. cbn [batches concat]. now rewrite IH.
Qed.


Lemma batch_calls_snoc :
  forall (sql : string) (bs : list (list Row)) (b : list Row),
    batch_calls sql (bs ++ [b]) =
    (batch_calls sql bs ++ [ExecuteMany Row sql b; Commit])%list.
Proof.
  intros. unfold batch_calls. rewrite flat_map_app. reflexivity.
Qed.

Lemma batch_calls_no_statement :
  forall (sql : string) (bs : list (list Row)),
    filter is_statement (batch_calls sql bs) = [].
Proof.
  induction bs as [| b bs IH]; cbn; auto.
Qed.

Lemma after_batches_zero :
  forall (sql : string) (w : World Row),
    dst_open Row w = [] -> after_batches sql 0 w = w.
Proof.
  intros sql w H. destruct w; cbn in *. subst.
  unfold after_batches; cbn. now rewrite !app_nil_r.
Qed.

Lemma after_batches_succ :
  forall (sql : string) (n : nat) (w : World Row),
    ok_batch sql (after_batches sql n w) = after_batches sql (S n) w.
Proof.
  intros sql n w.
  unfold ok_batch, after_batches, commit_open, log_call, write_rows,
    take_rows.
  cbn [src_unread fetched dst_committed dst_open identity_insert dst_has_pk
       dst_calls stdout].
  rewrite batches_snoc, batch_calls_snoc, skipn_skipn.
  change (S n * BATCH) with (BATCH + n * BATCH).
  rewrite (Nat.add_comm BATCH (n * BATCH)), firstn_plus.
  cbn [app]. rewrite <- !app_assoc. reflexivity.
Qed.

End Batches.

Section CopyLoop.

Context {Row : Type}.
Variable F : Faults.
Variable sql : string.

(** One iteration in which nothing raises. *)
Lemma copy_loop_step :
  forall (fuel k : nat) (rc : Z) (w : World Row),
    raises F (Fetch k) = false ->
    raises F (Insert k) = false ->
    raises F (BatchCommit k) = false ->
    src_unread Row w <> [] ->
    copy_loop F sql (S fuel) k rc w =
    copy_loop F sql fuel (S k)
      (rc + Z.of_nat (length (firstn BATCH (src_unread Row w))))
      (ok_batch sql w).
Proof.
  intros fuel k rc w Hf Hi Hc Hne.
  cbn [copy_loop]. unfold ok_batch, bind, fetchmany, executemany, commit.
  rewrite Hf.
  destruct (firstn BATCH (src_unread Row w)) as [| x b] eqn:Hb.
  - elim Hne. exact (firstn_empty_inv _ _ BATCH_pos Hb).
  - rewrite Hi, Hc. reflexivity.
Qed.


Lemma copy_loop_fetch_raises :
  forall (fuel k : nat) (rc : Z) (w : World Row),
    raises F (Fetch k) = true ->
    copy_loop F sql (S fuel) k rc w = (Raised (Fetch k), w).
Proof.
  intros fuel k rc w Hf.
  cbn [copy_loop]. unfold bind, fetchmany. now rewrite Hf.
Qed.

Lemma copy_loop_insert_raises :
  forall (fuel k : nat) (rc : Z) (w : World Row),
    raises F (Fetch k) = false ->
    raises F (Insert k) = true ->
    src_unread Row w <> [] ->
    copy_loop F sql (S fuel) k rc w =
    let b := firstn BATCH (src_unread Row w) in
    (Raised (Insert k),
     write_rows Row (firstn (applied F k) b)
       (log_call Row (ExecuteMany Row sql b) (take_rows Row BATCH w))).
Proof.
  intros fuel k rc w Hf Hi Hne.
  cbn [copy_loop]. unfold bind, fetchmany, executemany.
  rewrite Hf.
  destruct (firstn BATCH (src_unread Row w)) as [| x b] eqn:Hb.
  - elim Hne. exact (firstn_empty_inv _ _ BATCH_pos Hb).
  - rewrite Hi. reflexivity.
Qed.

(** [n] clean iterations over a result set that has rows left for each
    of them. *)
Lemma copy_loop_clean_prefix :
  forall (n fuel k : nat) (rc : Z) (w : World Row),
    dst_open Row w = [] ->
    clean_run F k n ->
    (forall j, j < n -> j * BATCH < length (src_unread Row w)) ->
    copy_loop F sql (n + fuel) k rc w =
    copy_loop F sql fuel (k + n)
      (rc + Z.of_nat (length (firstn (n * BATCH) (src_unread Row w))))
      (after_batches sql n w).
Proof.
  induction n as [| n IH]; intros fuel k rc w Hopen Hclean Hrows.
  - cbn [Nat.add Nat.mul firstn length Z.of_nat].
    rewrite Nat.add_0_r, Z.add_0_r, after_batches_zero by assumption.
    reflexivity.
  - replace (S n + fuel) with (n + S fuel) by lia.
    rewrite IH; [ | assumption | | ].
    + destruct (Hclean n (Nat.lt_succ_diag_r n)) as (Hf & Hi & Hc).
      rewrite copy_loop_step; try assumption.
      * rewrite after_batches_succ.
        replace (k + S n) with (S (k + n)) by lia.
        f_equal.
        change (S n * BATCH) with (BATCH + n * BATCH).
        rewrite (Nat.add_comm BATCH (n * BATCH)), firstn_plus.
        rewrite length_app, Nat2Z.inj_add.
        cbn [src_unread after_batches]. lia.
      * cbn [src_unread after_batches].
        intros Hnil.
        assert (Hlen : length (skipn (n * BATCH) (src_unread Row w)) = 0)
          by now rewrite Hnil.
        rewrite length_skipn in Hlen.
        specialize (Hrows n (Nat.lt_succ_diag_r n)). lia.
    + intros j Hj. apply Hclean. lia.
    + intros j Hj. apply Hrows. lia.
Qed.

(** Whatever the environment does, the loop leaves the identity-insert
    setting alone and sends no statement of its own: it only appends
    [executemany] and [commit] calls to the destination log. *)
Lemma copy_loop_frame :
  forall (fuel k : nat) (rc : Z) (w : World Row),
    let w' := snd (copy_loop F sql fuel k rc w) in
    identity_insert Row w' = identity_insert Row w /\
    exists added : list (DstCall Row),
      dst_calls Row w' = (dst_calls Row w ++ added)%list /\
      filter is_statement added = [].
Proof.
  induction fuel as [| fuel IH]; intros k rc w; cbn zeta.
  - cbn. split; [ reflexivity | ]. exists []. now rewrite app_nil_r.
  - cbn [copy_loop]. unfold bind, fetchmany, executemany, commit.
    destruct (raises F (Fetch k)).
    { cbn. split; [ reflexivity | ]. exists []. now rewrite app_nil_r. }
    destruct (firstn BATCH (src_unread Row w)) as [| x b].
    { cbn. split; [ reflexivity | ]. exists []. now rewrite app_nil_r. }
    destruct (raises F (Insert k)).
    { cbn. split; [ reflexivity | ]. eexists. split; reflexivity. }
    destruct (raises F (BatchCommit k)).
    { cbn. split; [ reflexivity | ].
      eexists. rewrite <- app_assoc. split; reflexivity. }
    match goal with
    | |- context [copy_loop F sql fuel ?k' ?rc' ?w1] =>
        destruct (IH k' rc' w1) as (Hid & added & Hcalls & Hnone)
    end.
    rewrite Hid, Hcalls. cbn.
    split; [ reflexivity | ].
    exists (ExecuteMany Row sql (x :: b) :: Commit :: added).
    rewrite <- !app_assoc. split; [ reflexivity | exact Hnone ].
Qed.

(** More fuel than unread rows is always enough. *)
Lemma copy_loop_fuel :
  forall (fuel k : nat) (rc : Z) (w : World Row),
    length (src_unread Row w) < fuel ->
    fst (copy_loop F sql fuel k rc w) <> OutOfFuel.
Proof.
  induction fuel as [| fuel IH]; intros k rc w Hlen; [ lia | ].
  cbn [copy_loop]. unfold bind, fetchmany, executemany, commit.
  destruct (raises F (Fetch k)); [ discriminate | ].
  destruct (firstn BATCH (src_unread Row w)) as [| x b] eqn:Hb;
    [ discriminate | ].
  destruct (raises F (Insert k)); [ discriminate | ].
  destruct (raises F (BatchCommit k)); [ discriminate | ].
  apply IH. cbn. rewrite length_skipn.
  assert (Hne : length (src_unread Row w) <> 0).
  { intros H0. apply length_zero_iff_nil in H0.
    rewrite H0, firstn_nil in Hb. discriminate Hb. }
  pose proof BATCH_pos. lia.
Qed.

End CopyLoop.

Section CopyStage.

Context {Row : Type}.
Variable cfg : Config.
Variable F : Faults.
Variable insertable : list string.

(** The finalizer of the identity branch: what it logs, what it leaves
    of the setting, and that it never runs out of fuel. *)
Lemma release_identity :
  forall w : World Row,
    let r := (set_identity_insert Row cfg F false ;;;
              commit Row F CleanupCommit) w in
    dst_calls Row (snd r) =
      (dst_calls Row w
         ++ Execute (identity_insert_sql cfg false)
            :: (if raises F SetIdentityOff then [] else [Commit]))%list /\
    identity_insert Row (snd r) =
      (if raises F SetIdentityOff then identity_insert Row w else false) /\
    fst r <> OutOfFuel.
Proof.
  intros w. cbn zeta. unfold bind, set_identity_insert, commit.
  destruct (raises F SetIdentityOff); cbn.
  - repeat split; discriminate.
  - destruct (raises F CleanupCommit); cbn; rewrite <- app_assoc;
      repeat split; discriminate.
Qed.

Lemma try_finally_fuel :
  forall (A : Type) (body : M Row A) (fin : M Row unit) (w : World Row),
    fst (body w) <> OutOfFuel ->
    (forall w1, fst (fin w1) <> OutOfFuel) ->
    fst (try_finally body fin w) <> OutOfFuel.
Proof.
  intros A body fin w Hb Hf. unfold try_finally.
  destruct (body w) as [r w1]. specialize (Hf w1).
  destruct (fin w1) as [[u | s |] w2]; cbn in *; auto; discriminate.
Qed.

Lemma copy_stage_total :
  forall (has_id : bool) (w : World Row),
    fst (copy_stage cfg F insertable has_id w) <> OutOfFuel.
Proof.
  intros has_id w. unfold copy_stage.
  apply try_finally_fuel.
  - unfold bind. destruct has_id.
    + unfold set_identity_insert.
      destruct (raises F SetIdentityOn); [ discriminate | ].
      apply copy_loop_fuel. cbn. lia.
    + unfold ret. apply copy_loop_fuel. lia.
  - intros w1. destruct has_id.
    + apply release_identity.
    + discriminate.
Qed.

Lemma copy_stage_identity_log :
  forall w : World Row,
    let w' := snd (copy_stage cfg F insertable true w) in
    (exists loop_calls : list (DstCall Row),
       filter is_statement loop_calls = [] /\
       new_calls w w' =
         (Execute (identity_insert_sql cfg true)
          :: loop_calls
          ++ Execute (identity_insert_sql cfg false)
             :: (if raises F SetIdentityOff then [] else [Commit]))%list) /\
    identity_insert Row w' =
      (if raises F SetIdentityOff
       then (if raises F SetIdentityOn then identity_insert Row w else true)
       else false).
Proof.
  intros w. cbn zeta. unfold copy_stage, try_finally.
  set (fin := set_identity_insert Row cfg F false ;;;
              commit Row F CleanupCommit).
  unfold bind, set_identity_insert.
  destruct (raises F SetIdentityOn).
  - cbv beta iota.
    destruct (release_identity
                (log_call Row (Execute (identity_insert_sql cfg true)) w))
      as (Hc & Hi & _).
    fold fin in Hc, Hi.
    destruct (fin _) as [[u | s |] w2]; cbn [fst snd] in *;
      (split;
       [ exists []; split; [ reflexivity | ];
         apply new_calls_app; rewrite Hc; cbn; now rewrite <- app_assoc
       | rewrite Hi; reflexivity ]).
  - match goal with
    | |- context [copy_loop F ?sql ?fuel 0 0%Z ?w1] =>
        destruct (copy_loop_frame F sql fuel 0 0%Z w1)
          as (Hid & added & Hcalls & Hnone);
        destruct (copy_loop F sql fuel 0 0%Z w1) as [r w2]
    end.
    cbn [fst snd] in *.
    destruct (release_identity w2) as (Hc & Hi & _).
    fold fin in Hc, Hi.
    destruct (fin w2) as [[u | s |] w3]; cbn [fst snd] in *;
      (split;
       [ exists added; split; [ exact Hnone | ];
         apply new_calls_app; rewrite Hc, Hcalls; cbn;
         now rewrite <- !app_assoc
       | rewrite Hi, Hid; cbn; reflexivity ]).
Qed.

Lemma copy_stage_plain_log :
  forall w : World Row,
    let w' := snd (copy_stage cfg F insertable false w) in
    filter is_statement (new_calls w w') = [] /\
    identity_insert Row w' = identity_insert Row w.
Proof.
  intros w. cbn zeta. unfold copy_stage, try_finally, bind, ret.
  match goal with
  | |- context [copy_loop F ?sql ?fuel 0 0%Z ?w1] =>
      destruct (copy_loop_frame F sql fuel 0 0%Z w1)
        as (Hid & added & Hcalls & Hnone);
      destruct (copy_loop F sql fuel 0 0%Z w1) as [r w2]
  end.
  cbn [fst snd] in *.
  rewrite (new_calls_app _ _ _ Hcalls). auto.
Qed.

End CopyStage.

Section BatchCount.

Lemma batch_count_spec :
  forall len : nat,
    len <= batch_count len * BATCH /\
    (forall j, j < batch_count len -> j * BATCH < len) /\
    batch_count len <= len.
Proof.
  intros len. unfold batch_count.
  pose proof BATCH_pos as HB. revert HB.
  generalize BATCH as B. intros B HB.
  pose proof (Nat.div_mod_eq (len + (B - 1)) B) as Hdm.
  pose proof (Nat.mod_upper_bound (len + (B - 1)) B ltac:(lia)) as Hm.
  set (q := (len + (B - 1)) / B) in *.
  set (m := (len + (B - 1)) mod B) in *.
  assert (Htight : forall j, j < q -> j * B < len) by (intros j Hj; nia).
  repeat split; [ nia | exact Htight | ].
  destruct q as [| q']; [ lia | ].
  specialize (Htight q' ltac:(lia)). nia.
Qed.

Context {Row : Type}.




(** A run of the loop whose first raising call is the bulk insert of
    iteration [k]. *)
Lemma copy_loop_fails_at :
  forall (F : Faults) (sql : string) (k : nat) (w : World Row),
    dst_open Row w = [] ->
    clean_run F 0 k ->
    raises F (Fetch k) = false ->
    raises F (Insert k) = true ->
    k * BATCH < length (src_unread Row w) ->
    copy_loop F sql (S (length (src_unread Row w))) 0 0 w =
    let b := firstn BATCH (skipn (k * BATCH) (src_unread Row w)) in
    (Raised (Insert k),
     write_rows Row (firstn (applied F k) b)
       (log_call Row (ExecuteMany Row sql b)
          (take_rows Row BATCH (after_batches sql k w)))).
Proof.
  intros F sql k w Hopen Hclean Hf Hi Hrows.
  pose proof BATCH_pos as HB.
  assert (Hk : k <= length (src_unread Row w)) by nia.
  replace (S (length (src_unread Row w)))
    with (k + S (length (src_unread Row w) - k)) by lia.
  rewrite copy_loop_clean_prefix; try assumption.
  - rewrite copy_loop_insert_raises; try assumption.
    + reflexivity.
    + cbn [src_unread after_batches]. intros Hnil.
      assert (Hlen : length (skipn (k * BATCH) (src_unread Row w)) = 0)
        by now rewrite Hnil.
      rewrite length_skipn in Hlen. lia.
  - intros j Hj. nia.
Qed.


End BatchCount.

Section CleanRun.

Context {Row : Type}.
Variable cfg : Config.
Variable insertable : list string.



End CleanRun.


Section FailedBatch.

Context {Row : Type}.
Variable cfg : Config.
Variable F : Faults.
Variable insertable : list string.
Variable source_rows : list Row.
Variable k : nat.

Hypothesis Hclean : clean_run F 0 k.
Hypothesis Hfetch : raises F (Fetch k) = false.
Hypothesis Hinsert : raises F (Insert k) = true.
Hypothesis Hrows : k * BATCH < length source_rows.

Lemma copy_stage_fails_plain :
  copy_stage cfg F insertable false (start_world source_rows) =
  (Raised (Insert k),
   failed_world cfg F insertable k (start_world source_rows)).
Proof.
  unfold copy_stage, try_finally, bind, ret.
  pose proof (copy_loop_fails_at F (insert_sql cfg insertable) k
                (start_world source_rows) eq_refl Hclean Hfetch Hinsert
                Hrows) as Hrun.
  cbn zeta in Hrun. rewrite Hrun. reflexivity.
Qed.

Lemma copy_stage_fails_identity :
  raises F SetIdentityOn = false ->
  copy_stage cfg F insertable true (start_world source_rows) =
  let w := failed_world cfg F insertable k
             (set_flag Row true
                (log_call Row (Execute (identity_insert_sql cfg true))
                   (start_world source_rows))) in
  let w1 := log_call Row (Execute (identity_insert_sql cfg false)) w in
  if raises F SetIdentityOff then (Raised SetIdentityOff, w1)
  else if raises F CleanupCommit
       then (Raised CleanupCommit,
             log_call Row Commit (set_flag Row false w1))
       else (Raised (Insert k),
             commit_open Row (log_call Row Commit (set_flag Row false w1))).
Proof.
  intros Hon.
  unfold copy_stage, try_finally.
  unfold bind at 1. unfold set_identity_insert at 1. rewrite Hon.
  pose proof (copy_loop_fails_at F (insert_sql cfg insertable) k
                (set_flag Row true
                   (log_call Row (Execute (identity_insert_sql cfg true))
                      (start_world source_rows)))
                eq_refl Hclean Hfetch Hinsert Hrows) as Hrun.
  cbn zeta in Hrun. rewrite Hrun.
  cbn zeta. unfold bind, set_identity_insert, commit.
  destruct (raises F SetIdentityOff); [ reflexivity | ].
  destruct (raises F CleanupCommit); reflexivity.
Qed.

End FailedBatch.

(** C3, as the code has it.  When the bulk insert of loop iteration [k]
    (counted from 0, so [k] batches were committed before it) is the first
    call to raise, the stage raises: the insert's error when the cleanup
    succeeds or is not needed, the cleanup's own error otherwise.  No
    committed batch is rolled back and no row of a later batch is written:
    the destination's committed rows are the rows of the [k] earlier
    batches, followed only by the rows of the failed batch that the engine
    had already written to the open transaction, and only when the
    identity-insert cleanup commits.  Without an identity column, or when
    the failing insert had written nothing, they are exactly the rows of
    the [k] earlier batches. *)
Theorem failed_batch_outcome :
  forall (Row : Type) (cfg : Config) (F : Faults) (insertable : list string)
         (has_id : bool) (source_rows : list Row) (k : nat),
    clean_run F 0 k ->
    raises F (Fetch k) = false ->
    raises F (Insert k) = true ->
    raises F SetIdentityOn = false ->
    k * BATCH < length source_rows ->
    let r := copy_stage cfg F insertable has_id (start_world source_rows) in
    let failed := firstn BATCH (skipn (k * BATCH) source_rows) in
    let cleanup_commits :=
      has_id && negb (raises F SetIdentityOff)
             && negb (raises F CleanupCommit) in
    fst r =
      Raised (if has_id && raises F SetIdentityOff then SetIdentityOff
              else if has_id && raises F CleanupCommit then CleanupCommit
              else Insert k) /\
    dst_committed Row (snd r) =
      (concat (batches k source_rows)
       ++ (if cleanup_commits then firstn (applied F k) failed else []))%list /\
    concat (batches k source_rows) = firstn (k * BATCH) source_rows /\
    (has_id = false \/ applied F k = 0 ->
     dst_committed Row (snd r) = concat (batches k source_rows)) /\
    identity_insert Row (snd r) = has_id && raises F SetIdentityOff.
Proof.
  intros Row cfg F insertable has_id source_rows k
         Hclean Hfetch Hinsert Hon Hrows r failed cleanup_commits.
  subst r failed cleanup_commits.
  rewrite concat_batches.
  destruct has_id.
  - rewrite (copy_stage_fails_identity cfg F insertable source_rows k
               Hclean Hfetch Hinsert Hrows Hon).
    cbv zeta.
    destruct (raises F SetIdentityOff), (raises F CleanupCommit);
      cbn [fst snd andb negb src_unread fetched dst_committed dst_open
           identity_insert dst_has_pk dst_calls stdout start_world app
           commit_open log_call set_flag write_rows take_rows after_batches
           failed_world];
      rewrite ?app_nil_r; repeat split; try reflexivity;
      intros [Hid | Happ]; try discriminate Hid;
      rewrite ?Happ; cbn [firstn]; rewrite ?app_nil_r; reflexivity.
  - rewrite (copy_stage_fails_plain cfg F insertable source_rows k
               Hclean Hfetch Hinsert Hrows).
    cbn [fst snd andb negb src_unread fetched dst_committed dst_open
         identity_insert dst_has_pk dst_calls stdout start_world app
         log_call write_rows take_rows after_batches failed_world].
    rewrite ?app_nil_r. repeat split; reflexivity.
Qed.

Lemma failed_batch_outcome_witness :
  let r := copy_stage script_config first_insert_fails ["[ID]"] true
             (start_world [10; 20; 30]%Z) in
  fst r = Raised (Insert 0) /\ dst_committed Z (snd r) = [10; 20]%Z.
Proof.
  assert (Hclean : clean_run first_insert_fails 0 0)
    by (intros j Hj; lia).
  assert (Hrows : 0 * BATCH < length [10; 20; 30]%Z)
    by (cbn; lia).
  destruct (failed_batch_outcome Z script_config first_insert_fails ["[ID]"]
              true [10; 20; 30]%Z 0 Hclean eq_refl eq_refl eq_refl Hrows)
    as (Hraised & Hrows_left & _).
  split; [ exact Hraised | exact Hrows_left ].
Defined.

(** The claim as the spec words it fails when the table has an identity
    column: the bulk insert of the second of three batches raises after
    the engine has written one row; the cleanup turns identity-insert off
    and commits, and that commit makes the stray row permanent, so the
    destination holds 5001 rows, not the 5000 of the first batch. *)
Lemma failed_batch_rows_committed :
  let source_rows := numbered_rows 0 12000 in
  let r := copy_stage script_config second_insert_fails ["[ID]"; "[Name]"]
             true (start_world source_rows) in
  clean_run second_insert_fails 0 1 /\
  raises second_insert_fails (Insert 1) = true /\
  fst r = Raised (Insert 1) /\
  identity_insert Z (snd r) = false /\
  concat (batches 1 source_rows) = numbered_rows 0 5000 /\
  dst_committed Z (snd r) = numbered_rows 0 5001 /\
  nth_error (firstn BATCH (skipn (1 * BATCH) source_rows)) 0 = Some 5000%Z /\
  nth_error (dst_committed Z (snd r)) 5000 = Some 5000%Z /\
  dst_committed Z (snd r) <> concat (batches 1 source_rows).
Proof.
  cbv zeta.
  split.
  { intros j Hj. assert (j = 0) by lia. subst j. cbn. auto. }
  split; [ reflexivity | ].
  split; [ vm_compute; reflexivity | ].
  split; [ vm_compute; reflexivity | ].
  split; [ vm_compute; reflexivity | ].
  split; [ vm_compute; reflexivity | ].
  split; [ vm_compute; reflexivity | ].
  split; [ vm_compute; reflexivity | ].
  intros H. apply (f_equal (@length Z)) in H.
  vm_compute in H. discriminate H.
Qed.

(** * Further properties *)

(** ** TypeFormatter: the remaining branches *)

(** X1.  The legacy large-object types are replaced by their MAX
    equivalents, whatever the catalog length says. *)
Theorem legacy_lob_normalized :
  forall (rt : Runtime) (r : ColumnRow),
    In (type_key r) ["text"; "ntext"; "image"] ->
    format_sql_type r =
    if type_key r =? "text" then "varchar(MAX)"
    else if type_key r =? "ntext" then "nvarchar(MAX)"
    else "varbinary(MAX)".
Proof.
  intros rt r Hin. rewrite format_sql_type_key.
  simpl in Hin; each_type Hin; rewrite <- Hin; reflexivity.
Qed.

Lemma legacy_lob_normalized_witness :
  format_sql_type (rt := ascii_runtime)
    (with_data_type sample_name_column (Some "NText")) =
  "nvarchar(MAX)".
Proof.
  apply (legacy_lob_normalized ascii_runtime
           (with_data_type sample_name_column (Some "NText"))).
  right; left; reflexivity.
Defined.

(** X2.  decimal and numeric are emitted with precision and scale; a null
    scale is not defaulted here and is printed as Python prints [None]. *)
Theorem decimal_precision_scale :
  forall (rt : Runtime) (r : ColumnRow),
    In (type_key r) ["decimal"; "numeric"] ->
    format_sql_type r =
    type_key r ++ "(" ++ Py.fmt_int (precision r) ++ ","
      ++ (match scale r with
          | Some v => Py.fmt_int v
          | None => "None"
          end) ++ ")".
Proof.
  intros rt r Hin. rewrite format_sql_type_key.
  simpl in Hin; each_type Hin; rewrite <- Hin; reflexivity.
Qed.

Lemma decimal_precision_scale_witness :
  format_sql_type (rt := ascii_runtime)
    {| column_id := 5; col_name := "Rate"; data_type := Some "Decimal";
       max_length := 9; precision := 18; scale := Some 4%Z;
       is_nullable := false; is_identity := false; is_computed := false;
       computed_definition := None; computed_persisted := None |} =
  "decimal(18,4)".
Proof.
  apply (decimal_precision_scale ascii_runtime
           {| column_id := 5; col_name := "Rate"; data_type := Some "Decimal";
              max_length := 9; precision := 18; scale := Some 4%Z;
              is_nullable := false; is_identity := false;
              is_computed := false;
              computed_definition := None; computed_persisted := None |}).
  left; reflexivity.
Defined.

Lemma str_in_false :
  forall (x y : string) (l : list string),
    Py.str_in x (y :: l) = false -> (x =? y) = false /\ Py.str_in x l = false.
Proof.
  intros x y l H. unfold Py.str_in in *. cbn [existsb] in H.
  apply orb_false_elim in H. exact H.
Qed.

Lemma lower_ascii_idempotent :
  forall c : ascii, Py.lower_ascii (Py.lower_ascii c) = Py.lower_ascii c.
Proof.
  intros [[] [] [] [] [] [] [] []]; reflexivity.
Qed.

Lemma lower_idempotent :
  forall s : string, Py.lower (Py.lower s) = Py.lower s.
Proof.
  induction s as [| c s IH]; cbn.
  - reflexivity.
  - now rewrite lower_ascii_idempotent, IH.
Qed.

Lemma lower_ascii_stays_ascii :
  forall c : ascii,
    (nat_of_ascii c <? 128)%nat = true ->
    (nat_of_ascii (Py.lower_ascii c) <? 128)%nat = true.
Proof.
  intros [[] [] [] [] [] [] [] []]; cbn; intros H;
    solve [ reflexivity | discriminate H ].
Qed.

Lemma lower_stays_ascii :
  forall s : string, Py.is_ascii s = true -> Py.is_ascii (Py.lower s) = true.
Proof.
  induction s as [| c s IH]; cbn [Py.is_ascii Py.lower]; intros H.
  - reflexivity.
  - apply andb_true_iff in H. destruct H as (Hc & Hs).
    apply andb_true_iff. split.
    + now apply lower_ascii_stays_ascii.
    + now apply IH.
Qed.

(** X3.  Every type name whose lower-casing, as Python computes it, is
    none of the fourteen handled names is emitted as that lower-casing,
    with no length, precision or scale and no error; a missing type name
    gives the empty string; and an ASCII name is emitted with [A]-[Z]
    turned into [a]-[z] and nothing else changed. *)
Theorem unhandled_type_passes_through :
  forall (rt : Runtime) (r : ColumnRow),
    Py.str_in (str_lower (Py.or_empty (data_type r))) handled_types = false ->
    format_sql_type r = str_lower (Py.or_empty (data_type r)) /\
    (data_type r = None -> format_sql_type r = "") /\
    (Py.is_ascii (Py.or_empty (data_type r)) = true ->
     format_sql_type r = Py.lower (Py.or_empty (data_type r))).
Proof.
  intros rt r H.
  assert (Hbare : format_sql_type r = str_lower (Py.or_empty (data_type r))).
  { rewrite format_sql_type_key. cbv zeta. unfold type_key.
    unfold handled_types in H.
    repeat match type of H with
           | Py.str_in _ (_ :: _) = false =>
               let E := fresh "E" in
               apply str_in_false in H; destruct H as [E H]
           end.
    unfold Py.str_in. cbn [existsb].
    repeat match goal with
           | E : (str_lower _ =? _) = false |- _ => rewrite E; clear E
           end.
    reflexivity. }
  split; [ exact Hbare | ].
  split.
  - intros Hnone. rewrite Hbare, Hnone. cbn [Py.or_empty].
    now rewrite (str_lower_ascii "" eq_refl).
  - intros Hascii. rewrite Hbare. now apply str_lower_ascii.
Qed.

Lemma unhandled_type_passes_through_witness :
  format_sql_type (rt := ascii_runtime)
    (with_data_type sample_name_column (Some "UniqueIdentifier"))
  = "uniqueidentifier".
Proof.
  apply (proj2 (proj2
           (unhandled_type_passes_through ascii_runtime
              (with_data_type sample_name_column (Some "UniqueIdentifier"))
              eq_refl))).
  reflexivity.
Defined.

(** X4.  The formatter sees the type name only through Python's
    lower-casing: two names with the same lower-casing format alike; and
    for an ASCII name, spelling it in lower case beforehand changes
    nothing. *)
Theorem format_ignores_case :
  forall (rt : Runtime) (r : ColumnRow) (s1 s2 : string),
    str_lower s1 = str_lower s2 ->
    format_sql_type (with_data_type r (Some s1)) =
      format_sql_type (with_data_type r (Some s2)) /\
    (Py.is_ascii s1 = true ->
     format_sql_type (with_data_type r (Some (Py.lower s1))) =
       format_sql_type (with_data_type r (Some s1))).
Proof.
  intros rt r s1 s2 H.
  rewrite !format_sql_type_key. unfold type_key.
  cbn [data_type with_data_type max_length precision scale Py.or_empty].
  split.
  - rewrite H. reflexivity.
  - intros Hascii.
    rewrite (str_lower_ascii (Py.lower s1) (lower_stays_ascii s1 Hascii)).
    rewrite (str_lower_ascii s1 Hascii), lower_idempotent. reflexivity.
Qed.

Lemma format_ignores_case_witness :
  format_sql_type (rt := ascii_runtime)
    (with_data_type sample_name_column (Some "NVARCHAR")) =
  format_sql_type (rt := ascii_runtime)
    (with_data_type sample_name_column (Some "nVarChar")).
Proof.
  exact (proj1 (format_ignores_case ascii_runtime sample_name_column
                  "NVARCHAR" "nVarChar" eq_refl)).
Defined.

(** ** TableBuilder: what the two lists have to do with each other *)

Lemma column_loop_spec :
  forall (rt : Runtime) (cols : list ColumnRow),
    col_defs (build_columns cols) = map loop_clause cols /\
    insertable_cols (build_columns cols) = spec_insertable cols /\
    has_identity (build_columns cols) = spec_has_identity cols.
Proof.
  intros rt cols. exact (build_fold cols build_init).
Qed.

(** X5.  When the loop sets has-identity, some catalog row is a
    non-computed identity column; its name is in the INSERT column list
    (which is therefore not empty) and its CREATE TABLE clause carries
    IDENTITY(1,1).  Identity-insert is thus only ever enabled for a table
    whose identity column the INSERT really writes. *)
Theorem identity_column_is_inserted :
  forall (rt : Runtime) (cols : list ColumnRow),
    has_identity (build_columns cols) = true ->
    insertable_cols (build_columns cols) <> [] /\
    exists r : ColumnRow,
      In r cols /\ is_computed r = false /\ is_identity r = true /\
      In ("[" ++ col_name r ++ "]") (insertable_cols (build_columns cols)) /\
      In ("[" ++ col_name r ++ "] " ++ format_sql_type r ++ " IDENTITY(1,1)"
            ++ (if is_nullable r then " NULL" else " NOT NULL"))
         (col_defs (build_columns cols)).
Proof.
  intros rt cols H.
  destruct (column_loop_spec rt cols) as (Hd & Hi & Hh).
  rewrite Hh in H. unfold spec_has_identity in H.
  apply existsb_exists in H. destruct H as (r & Hin & Hid).
  apply filter_In in Hin. destruct Hin as (Hin & Hnc).
  unfold non_computed in Hnc. apply negb_true_iff in Hnc.
  assert (Hname : In ("[" ++ col_name r ++ "]")
                     (insertable_cols (build_columns cols))).
  { rewrite Hi. unfold spec_insertable.
    apply (in_map quoted_name). apply filter_In. split; [ exact Hin | ].
    unfold non_computed. now rewrite Hnc. }
  split.
  - intros Hnil. rewrite Hnil in Hname. exact Hname.
  - exists r. repeat split; try assumption.
    rewrite Hd.
    replace ("[" ++ col_name r ++ "] " ++ format_sql_type r
               ++ " IDENTITY(1,1)"
               ++ (if is_nullable r then " NULL" else " NOT NULL"))
      with (loop_clause r).
    + now apply in_map.
    + unfold loop_clause, quoted_name. rewrite Hnc, Hid.
      rewrite !append_assoc. reflexivity.
Qed.

Lemma identity_column_is_inserted_witness :
  insertable_cols (build_columns (rt := ascii_runtime) sample_columns) <> [].
Proof.
  exact (proj1 (identity_column_is_inserted ascii_runtime sample_columns
                  eq_refl)).
Defined.

Lemma computed_partition :
  forall cols : list ColumnRow,
    length (filter non_computed cols) + length (filter is_computed cols) =
    length cols.
Proof.
  unfold non_computed.
  induction cols as [| r cols IH]; [ reflexivity | ].
  cbn [filter]. destruct (is_computed r); cbn [negb length]; lia.
Qed.

(** X6.  CREATE TABLE gets exactly one clause per catalog row; every row is
    either in the INSERT column list or computed, never both and never
    neither; and each name in the INSERT column list is the bracketed name
    of a non-computed catalog row, whose clause in CREATE TABLE is a plain
    [[name] type ...] declaration and not an AS clause. *)
Theorem insert_targets_are_declared :
  forall (rt : Runtime) (cols : list ColumnRow),
    length (col_defs (build_columns cols)) = length cols /\
    length (insertable_cols (build_columns cols))
      + length (filter is_computed cols) = length cols /\
    Forall
      (fun name =>
         exists r : ColumnRow,
           In r cols /\ is_computed r = false /\
           name = "[" ++ col_name r ++ "]" /\
           In (name ++ " " ++ format_sql_type r
                 ++ (if is_identity r then " IDENTITY(1,1)" else "")
                 ++ (if is_nullable r then " NULL" else " NOT NULL"))
              (col_defs (build_columns cols)))
      (insertable_cols (build_columns cols)).
Proof.
  intros rt cols.
  destruct (column_loop_spec rt cols) as (Hd & Hi & _).
  rewrite Hd, Hi. unfold spec_insertable. rewrite !length_map.
  split; [ reflexivity | ].
  split.
  - apply computed_partition.
  - rewrite Forall_forall. intros name Hname.
    apply in_map_iff in Hname. destruct Hname as (r & Heq & Hin).
    apply filter_In in Hin. destruct Hin as (Hin & Hnc).
    unfold non_computed in Hnc. apply negb_true_iff in Hnc.
    exists r. subst name. unfold quoted_name.
    repeat split; try assumption.
    replace (("[" ++ col_name r ++ "]") ++ " " ++ format_sql_type r
               ++ (if is_identity r then " IDENTITY(1,1)" else "")
               ++ (if is_nullable r then " NULL" else " NOT NULL"))
      with (loop_clause r).
    + now apply in_map.
    + unfold loop_clause, quoted_name. rewrite Hnc. reflexivity.
Qed.

(** ** BatchCopier: what holds whatever the environment does *)

Section LoopInvariants.

Context {Row : Type}.
Variable F : Faults.
Variable sql : string.

(** The world after a clean iteration, seen through the fields the
    invariants talk about. *)
Lemma clean_iteration_fields :
  forall (w : World Row) (x : Row) (b : list Row),
    dst_open Row w = [] ->
    firstn BATCH (src_unread Row w) = x :: b ->
    let w1 :=
      commit_open Row
        (log_call Row Commit
           (write_rows Row (x :: b)
              (log_call Row (ExecuteMany Row sql (x :: b))
                 (take_rows Row BATCH w)))) in
    dst_open Row w1 = [] /\
    dst_committed Row w1 = (dst_committed Row w ++ x :: b)%list /\
    src_unread Row w1 = skipn BATCH (src_unread Row w) /\
    dst_calls Row w1 =
      (dst_calls Row w ++ [ExecuteMany Row sql (x :: b); Commit])%list.
Proof.
  intros w x b Hopen Hb. cbv zeta.
  cbn [dst_open dst_committed src_unread dst_calls commit_open log_call
       write_rows take_rows].
  rewrite Hopen, <- app_assoc. cbn [app]. repeat split; reflexivity.
Qed.

(** Committed rows, and committed plus pending rows, are always a leading
    part of the rows the loop started with. *)
Lemma copy_loop_prefix :
  forall (fuel k : nat) (rc : Z) (w : World Row),
    dst_open Row w = [] ->
    exists c m : nat,
      c <= m /\
      dst_committed Row (snd (copy_loop F sql fuel k rc w)) =
        (dst_committed Row w ++ firstn c (src_unread Row w))%list /\
      (dst_committed Row (snd (copy_loop F sql fuel k rc w))
         ++ dst_open Row (snd (copy_loop F sql fuel k rc w)))%list =
        (dst_committed Row w ++ firstn m (src_unread Row w))%list.
Proof.
  induction fuel as [| fuel IH]; intros k rc w Hopen.
  - exists 0, 0. cbn [copy_loop snd firstn]. rewrite Hopen, !app_nil_r. auto.
  - cbn [copy_loop]. unfold bind, fetchmany.
    destruct (raises F (Fetch k)).
    { exists 0, 0. cbn [snd firstn]. rewrite Hopen, !app_nil_r. auto. }
    destruct (firstn BATCH (src_unread Row w)) as [| x b] eqn:Hb.
    { exists 0, 0. cbn [snd firstn ret dst_committed dst_open take_rows].
      rewrite Hopen, !app_nil_r. auto. }
    unfold executemany.
    destruct (raises F (Insert k)).
    { exists 0, (Nat.min (applied F k) BATCH).
      cbn [snd firstn dst_committed dst_open write_rows log_call take_rows].
      rewrite Hopen, app_nil_r. cbn [app].
      rewrite <- Hb, firstn_firstn.
      split; [ lia | split; reflexivity ]. }
    unfold commit.
    destruct (raises F (BatchCommit k)).
    { exists 0, BATCH.
      cbn [snd firstn dst_committed dst_open write_rows log_call take_rows].
      rewrite Hopen, app_nil_r, Hb. cbn [app].
      split; [ lia | split; reflexivity ]. }
    destruct (clean_iteration_fields w x b Hopen Hb)
      as (Hopen1 & Hcom1 & Hsrc1 & _).
    match goal with
    | |- context [copy_loop F sql fuel ?k' ?rc' ?w1] =>
        destruct (IH k' rc' w1 Hopen1) as (c & m & Hcm & Hc & Hm);
        rewrite Hm, Hc, Hcom1, Hsrc1
    end.
    exists (BATCH + c), (BATCH + m).
    rewrite !firstn_plus, Hb, <- !app_assoc.
    split; [ lia | split; reflexivity ].
Qed.

(** A loop that returns has moved every row: the count is the number of
    rows it started with, all of them are committed, none is pending. *)
Lemma copy_loop_returned :
  forall (fuel k : nat) (rc n : Z) (w : World Row),
    dst_open Row w = [] ->
    fst (copy_loop F sql fuel k rc w) = Returned n ->
    n = (rc + Z.of_nat (length (src_unread Row w)))%Z /\
    dst_committed Row (snd (copy_loop F sql fuel k rc w)) =
      (dst_committed Row w ++ src_unread Row w)%list /\
    dst_open Row (snd (copy_loop F sql fuel k rc w)) = [] /\
    src_unread Row (snd (copy_loop F sql fuel k rc w)) = [].
Proof.
  induction fuel as [| fuel IH]; intros k rc n w Hopen.
  - cbn. discriminate.
  - cbn [copy_loop]. unfold bind, fetchmany.
    destruct (raises F (Fetch k)); [ cbn; discriminate | ].
    destruct (firstn BATCH (src_unread Row w)) as [| x b] eqn:Hb.
    { pose proof (firstn_empty_inv _ _ BATCH_pos Hb) as Hnil.
      cbn [fst snd ret dst_committed dst_open src_unread take_rows].
      intros Hret. injection Hret as <-.
      rewrite Hnil, skipn_nil, app_nil_r. cbn [length Z.of_nat].
      rewrite Z.add_0_r. auto. }
    unfold executemany.
    destruct (raises F (Insert k)); [ cbn; discriminate | ].
    unfold commit.
    destruct (raises F (BatchCommit k)); [ cbn; discriminate | ].
    destruct (clean_iteration_fields w x b Hopen Hb)
      as (Hopen1 & Hcom1 & Hsrc1 & _).
    intros Hret.
    match goal with
    | |- context [copy_loop F sql fuel ?k' ?rc' ?w1] =>
        destruct (IH k' rc' n w1 Hopen1 Hret) as (Hn & Hc & Ho & Hs);
        rewrite Hc, Ho, Hs, Hcom1, Hsrc1
    end.
    rewrite Hsrc1 in Hn.
    pose proof (firstn_skipn BATCH (src_unread Row w)) as Hsplit.
    rewrite Hb in Hsplit.
    pose proof (f_equal (@length Row) Hsplit) as Hlen.
    rewrite length_app in Hlen.
    split; [ lia | ].
    split; [ | split; reflexivity ].
    rewrite <- app_assoc, Hsplit. reflexivity.
Qed.

(** The loop only ever sends bulk inserts of [sql] with between 1 and
    [BATCH] rows, and commits. *)
Lemma copy_loop_calls_ok :
  forall (fuel k : nat) (rc : Z) (w : World Row),
    exists added : list (DstCall Row),
      dst_calls Row (snd (copy_loop F sql fuel k rc w)) =
        (dst_calls Row w ++ added)%list /\
      Forall (loop_call_ok sql) added.
Proof.
  induction fuel as [| fuel IH]; intros k rc w.
  - exists []. cbn. now rewrite app_nil_r.
  - cbn [copy_loop]. unfold bind, fetchmany.
    destruct (raises F (Fetch k)).
    { exists []. cbn. now rewrite app_nil_r. }
    destruct (firstn BATCH (src_unread Row w)) as [| x b] eqn:Hb.
    { exists []. cbn. now rewrite app_nil_r. }
    assert (Hsize : loop_call_ok sql (ExecuteMany Row sql (x :: b))).
    { cbn [loop_call_ok]. split; [ reflexivity | ].
      rewrite <- Hb. split; [ rewrite Hb; cbn; lia | apply firstn_le_length ]. }
    unfold executemany.
    destruct (raises F (Insert k)).
    { exists [ExecuteMany Row sql (x :: b)].
      cbn [snd dst_calls write_rows log_call take_rows].
      split; [ reflexivity | constructor; [ exact Hsize | constructor ] ]. }
    unfold commit.
    destruct (raises F (BatchCommit k)).
    { exists [ExecuteMany Row sql (x :: b); Commit].
      cbn. rewrite <- app_assoc. split; [ reflexivity | ].
      constructor; [ exact Hsize | constructor; [ exact I | constructor ] ]. }
    match goal with
    | |- context [copy_loop F sql fuel ?k' ?rc' ?w1] =>
        destruct (IH k' rc' w1) as (added & Hcalls & Hok);
        rewrite Hcalls
    end.
    exists (ExecuteMany Row sql (x :: b) :: Commit :: added).
    cbn [dst_calls commit_open log_call write_rows take_rows].
    rewrite <- !app_assoc. split; [ reflexivity | ].
    constructor; [ exact Hsize | constructor; [ exact I | exact Hok ] ].
Qed.

End LoopInvariants.

Section StageInvariants.

Context {Row : Type}.
Variable cfg : Config.
Variable F : Faults.
Variable insertable : list string.

(** What the finalizer of the identity branch does to the rows and how it
    ends. *)
Lemma release_rows :
  forall w : World Row,
    let r := (set_identity_insert Row cfg F false ;;;
              commit Row F CleanupCommit) w in
    dst_committed Row (snd r) =
      (if cleanup_commits F true
       then (dst_committed Row w ++ dst_open Row w)%list
       else dst_committed Row w) /\
    dst_open Row (snd r) =
      (if cleanup_commits F true then [] else dst_open Row w) /\
    src_unread Row (snd r) = src_unread Row w /\
    fetched Row (snd r) = fetched Row w /\
    fst r =
      (if raises F SetIdentityOff then Raised SetIdentityOff
       else if raises F CleanupCommit then Raised CleanupCommit
       else Returned tt).
Proof.
  intros w. cbv zeta. unfold bind, set_identity_insert, commit, cleanup_commits.
  destruct (raises F SetIdentityOff); cbn; [ auto | ].
  destruct (raises F CleanupCommit); cbn; auto.
Qed.

(** Without an identity column the [try]/[finally] adds nothing to the
    loop. *)
Lemma copy_stage_plain :
  forall w : World Row,
    copy_stage cfg F insertable false w =
    copy_loop F (insert_sql cfg insertable)
      (S (length (src_unread Row w))) 0 0 w.
Proof.
  intros w. unfold copy_stage, try_finally, bind, ret.
  destruct (copy_loop _ _ _ _ _ _) as [r w2]. reflexivity.
Qed.

(** With an identity column: the body of the [try] followed by the
    finalizer, whose error, if any, replaces the outcome of the body. *)
Lemma copy_stage_identity :
  forall w : World Row,
    let w1 := log_call Row (Execute (identity_insert_sql cfg true)) w in
    let body :=
      if raises F SetIdentityOn then (Raised SetIdentityOn, w1)
      else copy_loop F (insert_sql cfg insertable)
             (S (length (src_unread Row w))) 0 0 (set_flag Row true w1) in
    let fin := (set_identity_insert Row cfg F false ;;;
                commit Row F CleanupCommit) (snd body) in
    copy_stage cfg F insertable true w =
    (match fst fin with
     | Returned _ => fst body
     | Raised s => Raised s
     | OutOfFuel => OutOfFuel
     end, snd fin).
Proof.
  intros w. cbv zeta. unfold copy_stage, try_finally.
  unfold bind at 1. unfold set_identity_insert at 1.
  destruct (raises F SetIdentityOn).
  - cbn [fst snd].
    destruct ((set_identity_insert Row cfg F false ;;;
               commit Row F CleanupCommit) _) as [[u | s |] w2];
      reflexivity.
  - change (src_unread Row
              (set_flag Row true
                 (log_call Row (Execute (identity_insert_sql cfg true)) w)))
      with (src_unread Row w).
    destruct (copy_loop _ _ _ _ _ _) as [r w2]. cbn [fst snd].
    destruct ((set_identity_insert Row cfg F false ;;;
               commit Row F CleanupCommit) w2) as [[u | s |] w3];
      reflexivity.
Qed.

End StageInvariants.

Lemma identity_insert_sql_literal :
  forall (cfg : Config) (on : bool),
    identity_insert_sql cfg on =
    "SET IDENTITY_INSERT [" ++ SCHEMA cfg ++ "].[" ++ TABLE cfg ++ "]"
      ++ (if on then " ON;" else " OFF;").
Proof.
  intros cfg on. unfold identity_insert_sql, qualified.
  rewrite !append_assoc. reflexivity.
Qed.

(** C2, as the code has it.  With an identity column, whatever call raises
    during the run, the destination log of the copy stage is: the statement
    SET IDENTITY_INSERT [schema].[table] ON, then the loop's bulk inserts
    and commits (no statement among them), then the statement SET
    IDENTITY_INSERT [schema].[table] OFF, then a commit unless the OFF
    statement raised.  If OFF raises, its error is what the stage raises
    and the session setting stays as it was (on, if ON had succeeded).  If
    OFF succeeds the setting ends off; the cleanup commit then either
    raises, and its error is what the stage raises, or goes through and
    leaves nothing pending.  The stage always terminates.  Without an
    identity column the stage sends no statement at all and leaves the
    setting untouched. *)
Theorem identity_insert_released :
  forall (Row : Type) (cfg : Config) (F : Faults) (insertable : list string)
         (w : World Row),
    let on_sql :=
      "SET IDENTITY_INSERT [" ++ SCHEMA cfg ++ "].[" ++ TABLE cfg ++ "] ON;" in
    let off_sql :=
      "SET IDENTITY_INSERT [" ++ SCHEMA cfg ++ "].[" ++ TABLE cfg
        ++ "] OFF;" in
    let with_id := copy_stage cfg F insertable true w in
    let without_id := copy_stage cfg F insertable false w in
    (exists loop_calls : list (DstCall Row),
       filter is_statement loop_calls = [] /\
       new_calls w (snd with_id) =
         (Execute on_sql
          :: loop_calls
          ++ Execute off_sql
             :: (if raises F SetIdentityOff then [] else [Commit]))%list) /\
    (if raises F SetIdentityOff
     then fst with_id = Raised SetIdentityOff /\
          identity_insert Row (snd with_id) =
            (if raises F SetIdentityOn then identity_insert Row w else true)
     else identity_insert Row (snd with_id) = false /\
          (if raises F CleanupCommit
           then fst with_id = Raised CleanupCommit
           else dst_open Row (snd with_id) = [])) /\
    fst with_id <> OutOfFuel /\
    filter is_statement (new_calls w (snd without_id)) = [] /\
    identity_insert Row (snd without_id) = identity_insert Row w /\
    fst without_id <> OutOfFuel.
Proof.
  intros Row cfg F insertable w on_sql off_sql with_id without_id.
  destruct (copy_stage_identity_log cfg F insertable w)
    as ((loop_calls & Hnone & Hcalls) & Hflag).
  destruct (copy_stage_plain_log cfg F insertable w) as (Hplain & Hsame).
  split.
  { exists loop_calls. split; [ exact Hnone | ].
    unfold with_id, on_sql, off_sql. rewrite Hcalls.
    now rewrite !identity_insert_sql_literal. }
  split.
  { unfold with_id. cbv zeta in Hflag. rewrite Hflag. clear Hflag.
    rewrite copy_stage_identity. cbv zeta. cbn [fst snd].
    match goal with
    | |- context [bind _ _ (snd ?b)] => set (body := b)
    end.
    destruct (release_rows cfg F (snd body)) as (_ & Ro & _ & _ & Rf).
    rewrite Ro, Rf. unfold cleanup_commits.
    destruct (raises F SetIdentityOff); [ split; reflexivity | ].
    split; [ reflexivity | ].
    destruct (raises F CleanupCommit); reflexivity. }
  repeat split; try assumption; apply copy_stage_total.
Qed.

(** The claim as the spec words it fails when the statement that turns
    identity-insert off raises too: the bulk insert of the first batch
    raises, the finalizer sends SET IDENTITY_INSERT ... OFF, which raises,
    so that no commit is sent and the setting is left on. *)
Lemma identity_insert_left_on :
  let r := copy_stage script_config insert_and_release_fail ["[ID]"] true
             (start_world [10; 20; 30]%Z) in
  fst r = Raised SetIdentityOff /\
  identity_insert Z (snd r) = true /\
  new_calls (start_world [10; 20; 30]%Z) (snd r) =
    [Execute "SET IDENTITY_INSERT [dim].[Employees] ON;";
     ExecuteMany Z "INSERT INTO [dim].[Employees] ([ID]) VALUES (?)"
       [10; 20; 30]%Z;
     Execute "SET IDENTITY_INSERT [dim].[Employees] OFF;"] /\
  ~ In Commit (new_calls (start_world [10; 20; 30]%Z) (snd r)).
Proof.
  cbv zeta.
  split; [ vm_compute; reflexivity | ].
  split; [ vm_compute; reflexivity | ].
  split; [ vm_compute; reflexivity | ].
  vm_compute. intros [H | [H | [H | []]]]; discriminate H.
Qed.

(** X7.  Whatever raises and wherever, the rows committed at the
    destination when the copy stage ends are a leading part of the source
    result set, in source order, and so are the committed rows followed by
    the rows still pending in the open transaction: no row is duplicated,
    skipped or reordered. *)
Theorem destination_is_source_prefix :
  forall (Row : Type) (cfg : Config) (F : Faults) (insertable : list string)
         (has_id : bool) (source_rows : list Row),
    let w := snd (copy_stage cfg F insertable has_id
                    (start_world source_rows)) in
    exists c m : nat,
      c <= m /\
      dst_committed Row w = firstn c source_rows /\
      (dst_committed Row w ++ dst_open Row w)%list = firstn m source_rows.
Proof.
  intros Row cfg F insertable has_id source_rows. cbv zeta.
  destruct has_id.
  - rewrite copy_stage_identity. cbv zeta. cbn [snd].
    match goal with
    | |- context [bind _ _ (snd ?b)] => set (body := b)
    end.
    assert (Hbody : exists c m : nat,
               c <= m /\
               dst_committed Row (snd body) = firstn c source_rows /\
               (dst_committed Row (snd body) ++ dst_open Row (snd body))%list
                 = firstn m source_rows).
    { unfold body. destruct (raises F SetIdentityOn).
      - exists 0, 0. cbn. auto.
      - match goal with
        | |- context [copy_loop F ?sql ?fuel 0 0%Z ?w1] =>
            destruct (copy_loop_prefix F sql fuel 0 0%Z w1 eq_refl)
              as (c & m & Hcm & Hc & Hm)
        end.
        cbn [dst_committed src_unread set_flag log_call start_world app]
          in Hc, Hm.
        exists c, m. auto. }
    destruct Hbody as (c & m & Hcm & Hc & Hm).
    destruct (release_rows cfg F (snd body)) as (Rc & Ro & _).
    rewrite Rc, Ro.
    destruct (cleanup_commits F true).
    + exists m, m. rewrite app_nil_r. auto.
    + exists c, m. auto.
  - rewrite copy_stage_plain.
    match goal with
    | |- context [copy_loop F ?sql ?fuel 0 0%Z ?w1] =>
        destruct (copy_loop_prefix F sql fuel 0 0%Z w1 eq_refl)
          as (c & m & Hcm & Hc & Hm)
    end.
    cbn [dst_committed src_unread start_world app] in Hc, Hm.
    exists c, m. auto.
Qed.

Lemma copy_stage_returned :
  forall (Row : Type) (cfg : Config) (F : Faults) (insertable : list string)
         (has_id : bool) (source_rows : list Row) (n : Z),
    fst (copy_stage cfg F insertable has_id (start_world source_rows)) =
      Returned n ->
    let w := snd (copy_stage cfg F insertable has_id
                    (start_world source_rows)) in
    n = Z.of_nat (length source_rows) /\
    dst_committed Row w = source_rows /\
    dst_open Row w = [] /\
    src_unread Row w = [] /\
    identity_insert Row w = false.
Proof.
  intros Row cfg F insertable has_id source_rows n. cbv zeta.
  destruct has_id.
  - pose proof (copy_stage_identity_log cfg F insertable
                  (start_world source_rows)) as (_ & Hflag).
    cbv zeta in Hflag. rewrite Hflag. clear Hflag.
    rewrite copy_stage_identity. cbv zeta. cbn [fst snd].
    match goal with
    | |- context [bind _ _ (snd ?b)] => set (body := b)
    end.
    destruct (release_rows cfg F (snd body)) as (Rc & Ro & Rs & _ & Rf).
    rewrite Rc, Ro, Rs, Rf. unfold cleanup_commits.
    destruct (raises F SetIdentityOff); [ discriminate | ].
    destruct (raises F CleanupCommit); [ discriminate | ].
    cbn [andb negb]. intros Hret.
    unfold body in *. clear body.
    destruct (raises F SetIdentityOn); [ discriminate Hret | ].
    match goal with
    | |- context [copy_loop F ?sql ?fuel 0 0%Z ?w1] =>
        destruct (copy_loop_returned F sql fuel 0 0%Z n w1 eq_refl Hret)
          as (Hn & Hc & Ho & Hs)
    end.
    cbn [dst_committed src_unread set_flag log_call start_world app] in *.
    rewrite Hc, Ho, Hs, app_nil_r. auto.
  - rewrite copy_stage_plain. intros Hret.
    match goal with
    | |- context [copy_loop F ?sql ?fuel 0 0%Z ?w1] =>
        destruct (copy_loop_returned F sql fuel 0 0%Z n w1 eq_refl Hret)
          as (Hn & Hc & Ho & Hs);
        destruct (copy_loop_frame F sql fuel 0 0%Z w1) as (Hid & _)
    end.
    cbn [dst_committed src_unread identity_insert start_world app] in *.
    auto.
Qed.

(** X8.  Whatever the environment could have done, a copy stage that
    returns has copied everything: the count it returns is the number of
    source rows, every source row is committed at the destination in source
    order, nothing is left pending or unread, and identity-insert is off. *)
Theorem returned_means_complete :
  forall (Row : Type) (cfg : Config) (F : Faults) (insertable : list string)
         (has_id : bool) (source_rows : list Row) (n : Z),
    fst (copy_stage cfg F insertable has_id (start_world source_rows)) =
      Returned n ->
    let w := snd (copy_stage cfg F insertable has_id
                    (start_world source_rows)) in
    n = Z.of_nat (length source_rows) /\
    dst_committed Row w = source_rows /\
    dst_open Row w = [] /\
    src_unread Row w = [] /\
    identity_insert Row w = false.
Proof.
  exact copy_stage_returned.
Qed.

Lemma returned_means_complete_witness :
  dst_committed Z
    (snd (copy_stage script_config no_faults ["[ID]"] true
            (start_world [10; 20; 30]%Z))) =
  [10; 20; 30]%Z.
Proof.
  exact (proj1 (proj2 (returned_means_complete Z script_config no_faults
                         ["[ID]"] true [10; 20; 30]%Z 3 eq_refl))).
Defined.

Lemma loop_call_is_bulk_ok :
  forall (Row : Type) (sql : string) (calls : list (DstCall Row)),
    Forall (loop_call_ok sql) calls -> Forall (bulk_insert_ok sql) calls.
Proof.
  intros Row sql calls H. apply (Forall_impl _ (P := loop_call_ok sql)).
  - intros [s p | s | s rows |]; cbn; tauto.
  - exact H.
Qed.

(** X9.  Whatever raises, every bulk insert the copy stage sends carries
    the INSERT statement built from the insertable columns and between 1
    and 5000 rows: never an empty batch, never an oversized one, never
    another statement. *)
Theorem bulk_inserts_well_formed :
  forall (Row : Type) (cfg : Config) (F : Faults) (insertable : list string)
         (has_id : bool) (w : World Row),
    Forall (bulk_insert_ok (insert_sql cfg insertable))
      (new_calls w (snd (copy_stage cfg F insertable has_id w))).
Proof.
  intros Row cfg F insertable has_id w.
  destruct has_id.
  - rewrite copy_stage_identity. cbv zeta. cbn [snd].
    match goal with
    | |- context [bind _ _ (snd ?b)] => set (body := b)
    end.
    destruct (release_identity cfg F (snd body)) as (Hfin & _).
    assert (Hbody : exists added : list (DstCall Row),
               dst_calls Row (snd body) =
                 (dst_calls Row w
                    ++ Execute (identity_insert_sql cfg true) :: added)%list
               /\ Forall (bulk_insert_ok (insert_sql cfg insertable)) added).
    { unfold body. destruct (raises F SetIdentityOn).
      - exists []. cbn. auto.
      - match goal with
        | |- context [copy_loop F ?sql ?fuel 0 0%Z ?w1] =>
            destruct (copy_loop_calls_ok F sql fuel 0 0%Z w1)
              as (added & Hcalls & Hok)
        end.
        exists added. rewrite Hcalls. cbn [dst_calls set_flag log_call].
        rewrite <- app_assoc. split; [ reflexivity | ].
        now apply loop_call_is_bulk_ok. }
    destruct Hbody as (added & Hcalls & Hok).
    rewrite Hcalls, <- app_assoc in Hfin. cbn [app] in Hfin.
    rewrite (new_calls_app _ _ _ Hfin).
    constructor; [ exact I | ].
    apply Forall_app. split; [ exact Hok | ].
    constructor; [ exact I | ].
    destruct (raises F SetIdentityOff); repeat constructor.
  - rewrite copy_stage_plain.
    match goal with
    | |- context [copy_loop F ?sql ?fuel 0 0%Z ?w1] =>
        destruct (copy_loop_calls_ok F sql fuel 0 0%Z w1)
          as (added & Hcalls & Hok)
    end.
    rewrite (new_calls_app _ _ _ Hcalls).
    now apply loop_call_is_bulk_ok.
Qed.

(** X10.  When SET IDENTITY_INSERT ... ON itself raises, the loop is never
    entered: nothing is fetched from the source and no bulk insert is
    sent; the finalizer still sends SET IDENTITY_INSERT [schema].[table]
    OFF (and the commit, if OFF succeeds), and the stage raises. *)
Theorem enable_failure_skips_loop :
  forall (Row : Type) (cfg : Config) (F : Faults) (insertable : list string)
         (w : World Row),
    raises F SetIdentityOn = true ->
    let r := copy_stage cfg F insertable true w in
    fst r = Raised (reported_site F true SetIdentityOn) /\
    src_unread Row (snd r) = src_unread Row w /\
    fetched Row (snd r) = fetched Row w /\
    new_calls w (snd r) =
      Execute ("SET IDENTITY_INSERT [" ++ SCHEMA cfg ++ "].[" ++ TABLE cfg
                 ++ "] ON;")
      :: Execute ("SET IDENTITY_INSERT [" ++ SCHEMA cfg ++ "].[" ++ TABLE cfg
                    ++ "] OFF;")
      :: (if raises F SetIdentityOff then [] else [Commit]).
Proof.
  intros Row cfg F insertable w Hon. cbv zeta.
  rewrite copy_stage_identity. cbv zeta. rewrite Hon. cbn [fst snd].
  set (w1 := log_call Row (Execute (identity_insert_sql cfg true)) w).
  destruct (release_rows cfg F w1) as (_ & _ & Rs & Rf & Ro).
  destruct (release_identity cfg F w1) as (Hcalls & _).
  rewrite Rs, Rf, Ro.
  split.
  { unfold reported_site. cbn [andb].
    destruct (raises F SetIdentityOff); [ reflexivity | ].
    destruct (raises F CleanupCommit); reflexivity. }
  split; [ reflexivity | ].
  split; [ reflexivity | ].
  apply new_calls_app. rewrite Hcalls. unfold w1, log_call.
  cbn [dst_calls]. rewrite <- app_assoc, !identity_insert_sql_literal.
  reflexivity.
Qed.

Lemma enable_failure_skips_loop_witness :
  fetched Z
    (snd (copy_stage script_config
            {| raises := fun s => match s with
                                  | SetIdentityOn => true
                                  | _ => false
                                  end;
               applied := fun _ => 0 |}
            ["[ID]"] true (start_world [10; 20; 30]%Z))) = [].
Proof.
  exact (proj1 (proj2 (proj2
           (enable_failure_skips_loop Z script_config
              {| raises := fun s => match s with
                                    | SetIdentityOn => true
                                    | _ => false
                                    end;
                 applied := fun _ => 0 |}
              ["[ID]"] (start_world [10; 20; 30]%Z) eq_refl)))).
Defined.

(** ** BatchCopier: a fetch or a commit that raises *)

Section OtherFailures.

Context {Row : Type}.
Variable F : Faults.
Variable sql : string.

Lemma copy_loop_commit_raises :
  forall (fuel k : nat) (rc : Z) (w : World Row),
    raises F (Fetch k) = false ->
    raises F (Insert k) = false ->
    raises F (BatchCommit k) = true ->
    src_unread Row w <> [] ->
    copy_loop F sql (S fuel) k rc w =
    let b := firstn BATCH (src_unread Row w) in
    (Raised (BatchCommit k),
     log_call Row Commit
       (write_rows Row b
          (log_call Row (ExecuteMany Row sql b) (take_rows Row BATCH w)))).
Proof.
  intros fuel k rc w Hf Hi Hc Hne.
  cbn [copy_loop]. unfold bind, fetchmany, executemany, commit.
  rewrite Hf.
  destruct (firstn BATCH (src_unread Row w)) as [| x b] eqn:Hb.
  - elim Hne. exact (firstn_empty_inv _ _ BATCH_pos Hb).
  - rewrite Hi, Hc. reflexivity.
Qed.

Lemma reached_batches :
  forall (len k j : nat),
    k <= batch_count len -> j < k -> j * BATCH < len.
Proof.
  intros len k j Hk Hj.
  destruct (batch_count_spec len) as (_ & Htight & _).
  apply Htight. lia.
Qed.

(** The fetch of iteration [k] is the first call to raise. *)
Lemma copy_loop_fetch_fails_at :
  forall (k : nat) (w : World Row),
    dst_open Row w = [] ->
    clean_run F 0 k ->
    raises F (Fetch k) = true ->
    k <= batch_count (length (src_unread Row w)) ->
    copy_loop F sql (S (length (src_unread Row w))) 0 0 w =
    (Raised (Fetch k), after_batches sql k w).
Proof.
  intros k w Hopen Hclean Hf Hk.
  destruct (batch_count_spec (length (src_unread Row w))) as (_ & _ & Hle).
  replace (S (length (src_unread Row w)))
    with (k + S (length (src_unread Row w) - k)) by lia.
  rewrite copy_loop_clean_prefix; try assumption.
  - now rewrite copy_loop_fetch_raises.
  - intros j Hj. exact (reached_batches _ k j Hk Hj).
Qed.

(** The commit of iteration [k] is the first call to raise. *)
Lemma copy_loop_commit_fails_at :
  forall (k : nat) (w : World Row),
    dst_open Row w = [] ->
    clean_run F 0 k ->
    raises F (Fetch k) = false ->
    raises F (Insert k) = false ->
    raises F (BatchCommit k) = true ->
    k * BATCH < length (src_unread Row w) ->
    copy_loop F sql (S (length (src_unread Row w))) 0 0 w =
    (Raised (BatchCommit k), uncommitted_world sql k w).
Proof.
  intros k w Hopen Hclean Hf Hi Hc Hrows.
  pose proof BATCH_pos as HB.
  assert (Hk : k <= length (src_unread Row w)) by nia.
  replace (S (length (src_unread Row w)))
    with (k + S (length (src_unread Row w) - k)) by lia.
  rewrite copy_loop_clean_prefix; try assumption.
  - rewrite copy_loop_commit_raises; try assumption.
    + reflexivity.
    + cbn [src_unread after_batches]. intros Hnil.
      assert (Hlen : length (skipn (k * BATCH) (src_unread Row w)) = 0)
        by now rewrite Hnil.
      rewrite length_skipn in Hlen. lia.
  - intros j Hj. nia.
Qed.

End OtherFailures.

(** X11.  When a fetch is the first call to raise, after [k] clean
    iterations, the stage raises (the fetch error, unless the cleanup
    raises too), the destination holds exactly the rows of the [k]
    committed batches, with or without an identity column and whether or
    not the cleanup commit succeeds, nothing is pending, and the rows not
    yet fetched are still unread at the source. *)
Theorem fetch_failure_keeps_committed :
  forall (Row : Type) (cfg : Config) (F : Faults) (insertable : list string)
         (has_id : bool) (source_rows : list Row) (k : nat),
    clean_run F 0 k ->
    raises F (Fetch k) = true ->
    raises F SetIdentityOn = false ->
    k <= batch_count (length source_rows) ->
    let r := copy_stage cfg F insertable has_id (start_world source_rows) in
    fst r = Raised (reported_site F has_id (Fetch k)) /\
    dst_committed Row (snd r) = concat (batches k source_rows) /\
    dst_open Row (snd r) = [] /\
    fetched Row (snd r) = batches k source_rows /\
    src_unread Row (snd r) = skipn (k * BATCH) source_rows.
Proof.
  intros Row cfg F insertable has_id source_rows k Hclean Hf Hon Hk.
  cbv zeta. rewrite concat_batches.
  destruct has_id.
  - rewrite copy_stage_identity. cbv zeta. rewrite Hon.
    set (w1 := set_flag Row true
                 (log_call Row (Execute (identity_insert_sql cfg true))
                    (start_world source_rows))).
    pose proof (copy_loop_fetch_fails_at F (insert_sql cfg insertable) k w1
                  eq_refl Hclean Hf Hk) as Hrun.
    change (src_unread Row w1) with source_rows in Hrun.
    change (src_unread Row (start_world source_rows)) with source_rows.
    rewrite Hrun. cbn [fst snd].
    destruct (release_rows cfg F
                (after_batches (insert_sql cfg insertable) k w1))
      as (Rc & Ro & Rs & Rf & Rr).
    rewrite Rc, Ro, Rs, Rf, Rr. unfold reported_site, w1.
    cbn [dst_committed dst_open src_unread fetched after_batches set_flag
         log_call start_world app andb].
    rewrite app_nil_r.
    destruct (cleanup_commits F true), (raises F SetIdentityOff),
      (raises F CleanupCommit); repeat split; reflexivity.
  - rewrite copy_stage_plain.
    pose proof (copy_loop_fetch_fails_at F (insert_sql cfg insertable) k
                  (start_world source_rows) eq_refl Hclean Hf Hk) as Hrun.
    change (src_unread Row (start_world source_rows)) with source_rows
      in Hrun |- *.
    rewrite Hrun. unfold reported_site.
    cbn [fst snd dst_committed dst_open src_unread fetched after_batches
         start_world app andb].
    repeat split; reflexivity.
Qed.

Lemma fetch_failure_keeps_committed_witness :
  dst_committed Z
    (snd (copy_stage script_config
            {| raises := fun s => match s with
                                  | Fetch 1 => true
                                  | _ => false
                                  end;
               applied := fun _ => 0 |}
            ["[ID]"] true (start_world [10; 20; 30]%Z))) =
  [10; 20; 30]%Z.
Proof.
  assert (Hclean : clean_run
                     {| raises := fun s => match s with
                                           | Fetch 1 => true
                                           | _ => false
                                           end;
                        applied := fun _ => 0 |} 0 1).
  { intros j Hj. assert (j = 0) by lia. subst j. cbn. auto. }
  assert (Hk : 1 <= batch_count (length [10; 20; 30]%Z))
    by (vm_compute; lia).
  exact (proj1 (proj2
           (fetch_failure_keeps_committed Z script_config _ ["[ID]"] true
              [10; 20; 30]%Z 1 Hclean eq_refl eq_refl Hk))).
Defined.

(** X12.  When the commit after a bulk insert is the first call to raise,
    after [k] clean iterations, the whole batch stays pending in the open
    transaction.  Without an identity column it is never committed and the
    destination holds the [k] earlier batches; with an identity column the
    cleanup's commit, when it succeeds, commits it, so that the stage
    raises the commit error although the destination then holds [k + 1]
    complete batches. *)
Theorem commit_failure_outcome :
  forall (Row : Type) (cfg : Config) (F : Faults) (insertable : list string)
         (has_id : bool) (source_rows : list Row) (k : nat),
    clean_run F 0 k ->
    raises F (Fetch k) = false ->
    raises F (Insert k) = false ->
    raises F (BatchCommit k) = true ->
    raises F SetIdentityOn = false ->
    k * BATCH < length source_rows ->
    let r := copy_stage cfg F insertable has_id (start_world source_rows) in
    let batch := firstn BATCH (skipn (k * BATCH) source_rows) in
    fst r = Raised (reported_site F has_id (BatchCommit k)) /\
    dst_committed Row (snd r) =
      (concat (batches k source_rows)
       ++ (if cleanup_commits F has_id then batch else []))%list /\
    dst_open Row (snd r) = (if cleanup_commits F has_id then [] else batch) /\
    (cleanup_commits F has_id = true ->
     fst r = Raised (BatchCommit k) /\
     dst_committed Row (snd r) = concat (batches (S k) source_rows)).
Proof.
  intros Row cfg F insertable has_id source_rows k
         Hclean Hf Hi Hc Hon Hrows.
  cbv zeta. rewrite batches_snoc, concat_app, concat_batches.
  cbn [concat]. rewrite (app_nil_r (firstn BATCH _)).
  destruct has_id.
  - rewrite copy_stage_identity. cbv zeta. rewrite Hon.
    set (w1 := set_flag Row true
                 (log_call Row (Execute (identity_insert_sql cfg true))
                    (start_world source_rows))).
    pose proof (copy_loop_commit_fails_at F (insert_sql cfg insertable) k w1
                  eq_refl Hclean Hf Hi Hc Hrows) as Hrun.
    change (src_unread Row w1) with source_rows in Hrun.
    change (src_unread Row (start_world source_rows)) with source_rows.
    rewrite Hrun. cbn [fst snd].
    destruct (release_rows cfg F
                (uncommitted_world (insert_sql cfg insertable) k w1))
      as (Rc & Ro & _ & _ & Rr).
    rewrite Rc, Ro, Rr. unfold reported_site, w1.
    cbn [dst_committed dst_open src_unread uncommitted_world after_batches
         write_rows take_rows set_flag log_call start_world app andb].
    unfold cleanup_commits. cbn [andb].
    destruct (raises F SetIdentityOff), (raises F CleanupCommit);
      cbn [andb negb]; rewrite ?app_nil_r;
      (split; [ reflexivity
              | split; [ reflexivity
                       | split; [ reflexivity
                                | intros Hok; try discriminate Hok;
                                  split; reflexivity ] ] ]).
  - rewrite copy_stage_plain.
    pose proof (copy_loop_commit_fails_at F (insert_sql cfg insertable) k
                  (start_world source_rows) eq_refl Hclean Hf Hi Hc Hrows)
      as Hrun.
    change (src_unread Row (start_world source_rows)) with source_rows
      in Hrun |- *.
    rewrite Hrun. unfold reported_site, cleanup_commits.
    cbn [fst snd dst_committed dst_open src_unread uncommitted_world
         after_batches write_rows take_rows log_call start_world app andb].
    rewrite app_nil_r.
    split; [ reflexivity
           | split; [ reflexivity
                    | split; [ reflexivity | intros Hok; discriminate Hok ] ] ].
Qed.

Lemma commit_failure_outcome_witness :
  let r := copy_stage script_config
             {| raises := fun s => match s with
                                   | BatchCommit 0 => true
                                   | _ => false
                                   end;
                applied := fun _ => 0 |}
             ["[ID]"] true (start_world [10; 20; 30]%Z) in
  fst r = Raised (BatchCommit 0) /\
  dst_committed Z (snd r) = [10; 20; 30]%Z.
Proof.
  assert (Hclean : clean_run
                     {| raises := fun s => match s with
                                           | BatchCommit 0 => true
                                           | _ => false
                                           end;
                        applied := fun _ => 0 |} 0 0)
    by (intros j Hj; lia).
  assert (Hrows : 0 * BATCH < length [10; 20; 30]%Z) by (cbn; lia).
  destruct (commit_failure_outcome Z script_config _ ["[ID]"] true
              [10; 20; 30]%Z 0 Hclean eq_refl eq_refl eq_refl eq_refl Hrows)
    as (Hraised & Hrows_left & _).
  split; [ exact Hraised | exact Hrows_left ].
Defined.

(** ** The run as a whole *)

Section WholeRun.

Context {Row : Type}.
Variable cfg : Config.
Variable F : Faults.

Lemma copy_loop_silent :
  forall (sql : string) (fuel k : nat) (rc : Z) (w : World Row),
    stdout Row (snd (copy_loop F sql fuel k rc w)) = stdout Row w.
Proof.
  induction fuel as [| fuel IH]; intros k rc w; [ reflexivity | ].
  cbn [copy_loop]. unfold bind, fetchmany, executemany, commit.
  destruct (raises F (Fetch k)); [ reflexivity | ].
  destruct (firstn BATCH (src_unread Row w)) as [| x b]; [ reflexivity | ].
  destruct (raises F (Insert k)); [ reflexivity | ].
  destruct (raises F (BatchCommit k)); [ reflexivity | ].
  rewrite IH. reflexivity.
Qed.

Lemma release_silent :
  forall w : World Row,
    stdout Row
      (snd ((set_identity_insert Row cfg F false ;;;
             commit Row F CleanupCommit) w)) = stdout Row w.
Proof.
  intros w. unfold bind, set_identity_insert, commit.
  destruct (raises F SetIdentityOff); [ reflexivity | ].
  destruct (raises F CleanupCommit); reflexivity.
Qed.

Lemma copy_stage_silent :
  forall (insertable : list string) (has_id : bool) (w : World Row),
    stdout Row (snd (copy_stage cfg F insertable has_id w)) = stdout Row w.
Proof.
  intros insertable has_id w. destruct has_id.
  - rewrite copy_stage_identity. cbv zeta. cbn [snd].
    rewrite release_silent.
    destruct (raises F SetIdentityOn); [ reflexivity | ].
    now rewrite copy_loop_silent.
  - rewrite copy_stage_plain. apply copy_loop_silent.
Qed.

(** The primary-key stage writes no row and prints nothing. *)
Lemma pk_stage_frame :
  forall (pk_cols : list (string * bool)) (pk_is_clustered : bool)
         (w : World Row),
    dst_open Row w = [] ->
    let r := pk_stage cfg F pk_cols pk_is_clustered w in
    dst_committed Row (snd r) = dst_committed Row w /\
    stdout Row (snd r) = stdout Row w /\
    fst r <> OutOfFuel.
Proof.
  intros pk_cols c w Hopen. cbv zeta. unfold pk_stage.
  destruct pk_cols as [| x rest]; [ cbn; repeat split; discriminate | ].
  unfold bind, query_pk_exists, execute_add_pk, commit, ret.
  destruct (raises F PkExists); [ cbn; repeat split; discriminate | ].
  destruct (dst_has_pk Row w); [ cbn; repeat split; discriminate | ].
  destruct (raises F AddPk); [ cbn; repeat split; discriminate | ].
  destruct (raises F PkCommit); cbn; rewrite ?Hopen, ?app_nil_r;
    repeat split; discriminate.
Qed.

(** The statements of the copy stage are the two identity-insert toggles
    and nothing else. *)
Lemma copy_stage_statements :
  forall (insertable : list string) (has_id : bool) (w : World Row)
         (sql : string),
    In (Execute sql)
       (new_calls w (snd (copy_stage cfg F insertable has_id w))) ->
    sql = identity_insert_sql cfg true \/ sql = identity_insert_sql cfg false.
Proof.
  intros insertable has_id w sql Hin.
  assert (Hfiltered : forall calls : list (DstCall Row),
             filter is_statement calls = [] -> ~ In (Execute sql) calls).
  { intros calls Hnone Hc.
    assert (Hf : In (Execute sql) (filter is_statement calls))
      by (apply filter_In; split; [ exact Hc | reflexivity ]).
    rewrite Hnone in Hf. exact Hf. }
  destruct has_id.
  - destruct (copy_stage_identity_log cfg F insertable w)
      as ((loop_calls & Hnone & Hcalls) & _).
    rewrite Hcalls in Hin.
    destruct Hin as [Hin | Hin]; [ left; congruence | ].
    apply in_app_or in Hin. destruct Hin as [Hin | Hin].
    + elim (Hfiltered _ Hnone Hin).
    + destruct Hin as [Hin | Hin]; [ right; congruence | ].
      destruct (raises F SetIdentityOff); [ elim Hin | ].
      destruct Hin as [Hin | []]. discriminate Hin.
  - destruct (copy_stage_plain_log cfg F insertable w) as (Hnone & _).
    elim (Hfiltered _ Hnone Hin).
Qed.

End WholeRun.

Section RunOutcome.

Context {Row : Type}.
Context {rt : Runtime}.
Variable cfg : Config.
Variable F : Faults.
Variable cols : list ColumnRow.
Variable pk_row : option PkInfoRow.
Variable index_columns : Z -> list PkColRow.
Variable source_rows : list Row.

Lemma copy_and_finalize_split :
  copy_and_finalize cfg F cols pk_row index_columns
    (start_world source_rows) =
  finalize_after cfg F (collect_pk pk_row index_columns)
    (fst (copy_stage cfg F (insertable_cols (build_columns cols))
            (has_identity (build_columns cols)) (start_world source_rows)))
    (snd (copy_stage cfg F (insertable_cols (build_columns cols))
            (has_identity (build_columns cols)) (start_world source_rows))).
Proof.
  unfold copy_and_finalize, finalize_after. unfold bind at 1.
  destruct (copy_stage _ _ _ _ _) as [[n | s |] wc]; reflexivity.
Qed.

(** The two ways a run can end. *)
Lemma run_outcome :
  let r := copy_and_finalize cfg F cols pk_row index_columns
             (start_world source_rows) in
  dst_committed Row (snd r) =
    dst_committed Row
      (snd (copy_stage cfg F (insertable_cols (build_columns cols))
              (has_identity (build_columns cols))
              (start_world source_rows))) /\
  ((fst r = Returned tt /\
    stdout Row (snd r) = [report cfg (Z.of_nat (length source_rows))] /\
    dst_committed Row (snd r) = source_rows) \/
   ((exists s : Site, fst r = Raised s) /\ stdout Row (snd r) = [])).
Proof.
  cbv zeta. rewrite copy_and_finalize_split.
  pose proof (copy_stage_total cfg F (insertable_cols (build_columns cols))
                (has_identity (build_columns cols))
                (start_world source_rows)) as Htotal.
  pose proof (copy_stage_silent cfg F (insertable_cols (build_columns cols))
                (has_identity (build_columns cols))
                (start_world source_rows)) as Hsilent.
  pose proof (copy_stage_returned Row cfg F
                (insertable_cols (build_columns cols))
                (has_identity (build_columns cols)) source_rows) as Hret.
  cbv zeta in Hret.
  destruct (copy_stage _ _ _ _ _) as [[n | s |] wc];
    cbn [fst snd] in *; [ | | elim Htotal; reflexivity ].
  - destruct (Hret n eq_refl) as (Hn & Hc & Ho & _).
    unfold finalize_after, bind, print.
    destruct (pk_stage_frame cfg F (fst (collect_pk pk_row index_columns))
                (snd (collect_pk pk_row index_columns)) wc Ho)
      as (Pc & Ps & Pt).
    destruct (pk_stage _ _ _ _ _) as [[u | s |] wp];
      cbn [fst snd] in *; [ | | elim Pt; reflexivity ].
    + unfold put_line. cbn [dst_committed stdout].
      rewrite Pc, Ps, Hsilent, Hc, Hn.
      split; [ reflexivity | left; repeat split; reflexivity ].
    + rewrite Pc, Ps, Hsilent.
      split; [ reflexivity | right; split; [ now exists s | reflexivity ] ].
  - unfold finalize_after. cbn [fst snd].
    split; [ reflexivity | right; split; [ now exists s | exact Hsilent ] ].
Qed.

(** The log of a run is the log of the copy stage, followed, only when the
    copy stage returned, by the calls of the primary-key stage. *)
Lemma run_log :
  let r := copy_and_finalize cfg F cols pk_row index_columns
             (start_world source_rows) in
  let copy := copy_stage cfg F (insertable_cols (build_columns cols))
                (has_identity (build_columns cols))
                (start_world source_rows) in
  (exists n : Z, fst copy = Returned n) \/
  dst_calls Row (snd r) = dst_calls Row (snd copy).
Proof.
  cbv zeta. rewrite copy_and_finalize_split.
  destruct (copy_stage _ _ _ _ _) as [[n | s |] wc]; cbn [fst snd].
  - left. now exists n.
  - right. reflexivity.
  - right. reflexivity.
Qed.

End RunOutcome.

(** X13.  A run prints its report only when every stage has succeeded: it
    either returns, having printed exactly one line, [Copied n rows to
    db.schema.table] with [n] the decimal numeral of the number of source
    rows, and with every source row committed; or it raises, having printed
    nothing.  No failure is swallowed, whichever call raises. *)
Theorem report_only_after_success :
  forall (Row : Type) (rt : Runtime) (cfg : Config) (F : Faults)
         (cols : list ColumnRow) (pk_row : option PkInfoRow)
         (index_columns : Z -> list PkColRow) (source_rows : list Row),
    let r := copy_and_finalize cfg F cols pk_row index_columns
               (start_world source_rows) in
    (fst r = Returned tt /\
     (exists numeral : string,
        stdout Row (snd r) =
          ["Copied " ++ numeral ++ " rows to "
             ++ DST_DB cfg ++ "." ++ SCHEMA cfg ++ "." ++ TABLE cfg] /\
        read_int numeral = Some (Z.of_nat (length source_rows))) /\
     dst_committed Row (snd r) = source_rows) \/
    ((exists s : Site, fst r = Raised s) /\ stdout Row (snd r) = []).
Proof.
  intros Row rt cfg F cols pk_row index_columns source_rows.
  destruct (proj2 (run_outcome cfg F cols pk_row index_columns source_rows))
    as [(Hret & Hout & Hrows) | Hraised].
  - left. split; [ exact Hret | ]. split; [ | exact Hrows ].
    exists (Py.fmt_int (Z.of_nat (length source_rows))).
    split; [ rewrite Hout; reflexivity | apply fmt_int_reads_back ].
  - right. exact Hraised.
Qed.

Lemma add_pk_is_no_toggle :
  forall (cfg : Config) (pk_cols : list (string * bool))
         (pk_is_clustered on : bool),
    add_pk_sql cfg pk_cols pk_is_clustered <> identity_insert_sql cfg on.
Proof.
  intros cfg pk_cols c on H.
  unfold add_pk_sql, identity_insert_sql in H. cbn [append] in H.
  discriminate H.
Qed.

(** X14.  The primary key is only ever added to a fully copied table: if
    the ALTER TABLE ... ADD CONSTRAINT statement appears in the log of a
    run, whatever else raised, every source row is committed at the
    destination. *)
Theorem key_added_after_full_copy :
  forall (Row : Type) (rt : Runtime) (cfg : Config) (F : Faults)
         (cols : list ColumnRow) (pk_row : option PkInfoRow)
         (index_columns : Z -> list PkColRow) (source_rows : list Row),
    let r := copy_and_finalize cfg F cols pk_row index_columns
               (start_world source_rows) in
    let pk := collect_pk pk_row index_columns in
    In (Execute (add_pk_sql cfg (fst pk) (snd pk))) (dst_calls Row (snd r)) ->
    dst_committed Row (snd r) = source_rows.
Proof.
  intros Row rt cfg F cols pk_row index_columns source_rows. cbv zeta.
  intros Hin.
  destruct (run_outcome cfg F cols pk_row index_columns source_rows)
    as (Hsame & _).
  cbv zeta in Hsame. rewrite Hsame.
  destruct (run_log cfg F cols pk_row index_columns source_rows)
    as [[n Hn] | Hlog].
  - exact (proj1 (proj2 (copy_stage_returned Row cfg F _ _ source_rows n Hn))).
  - cbv zeta in Hlog. rewrite Hlog in Hin.
    match type of Hin with
    | In _ (dst_calls Row ?wc) =>
        change (dst_calls Row wc)
          with (new_calls (start_world source_rows) wc) in Hin
    end.
    apply copy_stage_statements in Hin.
    destruct Hin as [Hin | Hin]; elim (add_pk_is_no_toggle _ _ _ _ Hin).
Qed.

Lemma key_added_after_full_copy_witness :
  dst_committed Z
    (snd (copy_and_finalize (rt := ascii_runtime) script_config no_faults
            sample_columns
            (Some sample_pk_row)
            (fun _ => [ {| pk_col_name := "ID"; is_descending_key := false;
                           key_ordinal := 1 |} ])
            (start_world [10; 20; 30]%Z))) =
  [10; 20; 30]%Z.
Proof.
  apply (key_added_after_full_copy Z ascii_runtime script_config no_faults
           sample_columns
           (Some sample_pk_row)
           (fun _ => [ {| pk_col_name := "ID"; is_descending_key := false;
                          key_ordinal := 1 |} ])
           [10; 20; 30]%Z).
  vm_compute.
  do 6 right. left. reflexivity.
Defined.

(** X15.  Once the primary-key stage has returned for a source that has a
    key, the destination has a primary key, and running the stage again
    sends the existence query and nothing else: the constraint is never
    added twice. *)
Theorem pk_stage_runs_once :
  forall (Row : Type) (cfg : Config) (F F' : Faults)
         (pk_cols : list (string * bool)) (pk_is_clustered : bool)
         (w : World Row),
    pk_cols <> [] ->
    fst (pk_stage cfg F pk_cols pk_is_clustered w) = Returned tt ->
    let w1 := snd (pk_stage cfg F pk_cols pk_is_clustered w) in
    dst_has_pk Row w1 = true /\
    new_calls w1 (snd (pk_stage cfg F' pk_cols pk_is_clustered w1)) =
      [Query pk_exists_sql [SCHEMA cfg; TABLE cfg]].
Proof.
  intros Row cfg F F' pk_cols c w Hne Hret. cbv zeta.
  assert (Hpk : dst_has_pk Row (snd (pk_stage cfg F pk_cols c w)) = true).
  { revert Hret. unfold pk_stage.
    destruct pk_cols as [| x rest]; [ elim Hne; reflexivity | ].
    unfold bind, query_pk_exists, execute_add_pk, commit, ret.
    destruct (raises F PkExists); [ discriminate | ].
    destruct (dst_has_pk Row w) eqn:Hhas; [ intros _; exact Hhas | ].
    destruct (raises F AddPk); [ discriminate | ].
    destruct (raises F PkCommit); [ discriminate | ].
    intros _. reflexivity. }
  split; [ exact Hpk | ].
  apply new_calls_app. rewrite pk_stage_log, Hpk.
  unfold pk_stage_calls.
  destruct pk_cols as [| x rest]; [ elim Hne; reflexivity | ].
  now rewrite orb_true_r.
Qed.

Lemma pk_stage_runs_once_witness :
  dst_has_pk Z
    (snd (pk_stage script_config no_faults [("ID", false)] true
            (start_world [])))
  = true.
Proof.
  assert (Hne : [("ID", false)] <> @nil (string * bool)) by discriminate.
  exact (proj1 (pk_stage_runs_once Z script_config no_faults no_faults
                  [("ID", false)] true (start_world []) Hne eq_refl)).
Defined.
